(** * Indonesian-law response validator: a shallow embedding

    The development follows [lib/validators.ts] (class
    [IndonesianLawValidator]).  Conventions of the model:

    - a JavaScript string is a [string]; the characters are read as 7-bit
      ASCII code units, so case mapping touches the letters A-Z / a-z only
      and the white-space class is the ASCII one;
    - a JavaScript number is an exact rational ([Q]); every score of the
      validator is a small integer or a quotient of two small integers;
    - the module-level [CITATION_PATTERNS] are [RegExp] objects with the
      [g] flag, hence carry a mutable [lastIndex]; the model keeps those
      ten indices in an explicit [Store] threaded through the validator;
    - [stringSimilarity.compareTwoStrings] belongs to a third-party package
      and is a parameter of the development. *)

From Stdlib Require Import String Ascii List Bool Arith ZArith QArith Qminmax Lia Lqa.
Import ListNotations.
Local Open Scope string_scope.
Local Open Scope list_scope.
Local Open Scope nat_scope.

(* ===================================================================== *)
(** ** JavaScript strings *)
(* ===================================================================== *)

Module JS.

Definition code (c : ascii) : nat := nat_of_ascii c.

Definition between (lo hi : nat) (c : ascii) : bool :=
  (lo <=? code c) && (code c <=? hi).

Definition isUpper : ascii -> bool := between 65 90.
Definition isLower : ascii -> bool := between 97 122.
Definition isDigit : ascii -> bool := between 48 57.

(** [\w] : letters, digits and the underscore. *)
Definition isWordChar (c : ascii) : bool :=
  isUpper c || isLower c || isDigit c || (code c =? 95).

(** [\s] and the characters removed by [trim]: TAB, LF, VT, FF, CR, SP. *)
Definition isSpace (c : ascii) : bool :=
  between 9 13 c || (code c =? 32).

(** Line terminators, which [.] refuses. *)
Definition isLineTerminator (c : ascii) : bool :=
  (code c =? 10) || (code c =? 13).

Definition lowerChar (c : ascii) : ascii :=
  if isUpper c then ascii_of_nat (code c + 32) else c.

Definition upperChar (c : ascii) : ascii :=
  if isLower c then ascii_of_nat (code c - 32) else c.

Fixpoint toLowerCase (s : string) : string :=
  match s with
  | EmptyString => EmptyString
  | String c s' => String (lowerChar c) (toLowerCase s')
  end.

(** [s.indexOf(sub)]; [None] stands for [-1]. *)
Definition indexOf (s sub : string) : option nat := index 0 sub s.

(** [s.includes(sub)]. *)
Definition includes (s sub : string) : bool :=
  match indexOf s sub with Some _ => true | None => false end.

(** [s.replace(pat, by)] with a string pattern: only the first occurrence
    of [pat] is replaced. *)
Definition replace (s pat by_ : string) : string :=
  match indexOf s pat with
  | None => s
  | Some i =>
      (substring 0 i s ++ by_ ++
       substring (i + String.length pat) (String.length s - (i + String.length pat)) s)%string
  end.

Fixpoint trimStart (s : string) : string :=
  match s with
  | String c s' => if isSpace c then trimStart s' else s
  | EmptyString => EmptyString
  end.

Fixpoint trimEnd (s : string) : string :=
  match s with
  | EmptyString => EmptyString
  | String c s' =>
      match trimEnd s' with
      | EmptyString => if isSpace c then EmptyString else String c EmptyString
      | t => String c t
      end
  end.

Definition trim (s : string) : string := trimEnd (trimStart s).

End JS.

(* ===================================================================== *)
(** ** Regular expressions: a backtracking matcher *)
(* ===================================================================== *)

Module Regex.

(** The fragment of the pattern language used by the validator. *)
Inductive regex : Type :=
| Empty                        (* the empty pattern *)
| Lit (c : ascii)              (* a literal character *)
| Cls (p : ascii -> bool)      (* a character class *)
| Cat (r1 r2 : regex)          (* r1 r2 *)
| Or (r1 r2 : regex)           (* r1 | r2 *)
| Many (r : regex)             (* r* , greedy *)
| Boundary.                    (* \b *)

Definition Some_ (r : regex) : regex := Cat r (Many r).        (* r+ *)
Definition Opt (r : regex) : regex := Or r Empty.              (* r? *)
Fixpoint Times (n : nat) (r : regex) : regex :=                (* r{n} *)
  match n with
  | O => Empty
  | S O => r
  | S n' => Cat r (Times n' r)
  end.

(** A literal word. *)
Fixpoint Str (s : string) : regex :=
  match s with
  | EmptyString => Empty
  | String c EmptyString => Lit c
  | String c s' => Cat (Lit c) (Str s')
  end.

Definition ws : regex := Cls JS.isSpace.                       (* \s *)
Definition digit : regex := Cls JS.isDigit.                    (* \d *)
Definition word : regex := Cls JS.isWordChar.                  (* \w *)
Definition dot : regex := Cls (fun c => negb (JS.isLineTerminator c)). (* . *)
Definition AZ : regex := Cls JS.isUpper.                       (* [A-Z] *)
Definition oneOf (s : string) : regex :=                       (* [...] *)
  Cls (fun c => existsb (Ascii.eqb c) (list_ascii_of_string s)).

Fixpoint seq (rs : list regex) : regex :=
  match rs with
  | [] => Empty
  | [r] => r
  | r :: rs' => Cat r (seq rs')
  end.

(** A [RegExp] object without its [lastIndex]: pattern and the [i] flag
    (every stateful use in the validator has the [g] flag). *)
Record RegExp : Type := mkRegExp { source : regex; ignoreCase : bool }.

(** One character against a literal or a class.  Under [i] two characters
    agree when their upper-case forms do. *)
Definition litMatches (ic : bool) (c x : ascii) : bool :=
  if ic then Ascii.eqb (JS.upperChar c) (JS.upperChar x) else Ascii.eqb c x.

Definition clsMatches (ic : bool) (p : ascii -> bool) (x : ascii) : bool :=
  if ic then p x || p (JS.upperChar x) || p (JS.lowerChar x) else p x.

Definition isWordBefore (prev : option ascii) : bool :=
  match prev with Some c => JS.isWordChar c | None => false end.

Definition isWordAt (s : string) : bool :=
  match s with String c _ => JS.isWordChar c | EmptyString => false end.

(** A continuation receives the character before the current position and
    the input still to be read, and answers with the input left after the
    whole match. *)
Definition Cont : Type := option ascii -> string -> option string.

(** The greedy loop of [r*]: one more iteration of [body] is preferred to
    leaving the loop, and an iteration that consumes nothing is rejected.
    The counter starts at the length of the input; every accepted iteration
    consumes a character, so the counter never runs out before the input
    does ([run_Many] below states the loop without it). *)
Fixpoint iterate (body : Cont -> Cont) (k : Cont) (n : nat)
  (prev : option ascii) (s : string) {struct n} : option string :=
  match n with
  | O => k prev s
  | S n' =>
      match body (fun p' s' =>
                    if String.length s' <? String.length s
                    then iterate body k n' p' s' else None)
                 prev s with
      | Some rest => Some rest
      | None => k prev s
      end
  end.

(** The matcher tries alternatives in priority order and backtracks:
    [Or] prefers its left branch, [Many] prefers one more iteration. *)
Fixpoint run (ic : bool) (r : regex) (k : Cont) (prev : option ascii) (s : string)
  {struct r} : option string :=
  match r with
  | Empty => k prev s
  | Lit c =>
      match s with
      | String x s' => if litMatches ic c x then k (Some x) s' else None
      | EmptyString => None
      end
  | Cls p =>
      match s with
      | String x s' => if clsMatches ic p x then k (Some x) s' else None
      | EmptyString => None
      end
  | Cat r1 r2 => run ic r1 (run ic r2 k) prev s
  | Or r1 r2 =>
      match run ic r1 k prev s with
      | Some rest => Some rest
      | None => run ic r2 k prev s
      end
  | Many r1 => iterate (run ic r1) k (String.length s) prev s
  | Boundary =>
      if xorb (isWordBefore prev) (isWordAt s) then k prev s else None
  end.

Definition done : Cont := fun _ rest => Some rest.

(** The match that starts exactly at the current position: its length. *)
Definition matchHere (re : RegExp) (prev : option ascii) (s : string) : option nat :=
  match run (ignoreCase re) (source re) done prev s with
  | Some rest => Some (String.length s - String.length rest)
  | None => None
  end.

(** [RegExpBuiltinExec] for a global pattern: skip [lastIndex] characters
    (failing when the input is shorter), then look for the leftmost match.
    The answer is the start and the end index of the match. *)
Fixpoint search (re : RegExp) (prev : option ascii) (s : string) (pos : nat)
  : option (nat * nat) :=
  match matchHere re prev s with
  | Some len => Some (pos, pos + len)
  | None =>
      match s with
      | EmptyString => None
      | String c s' => search re (Some c) s' (S pos)
      end
  end.

Fixpoint execAt (re : RegExp) (skip : nat) (prev : option ascii) (s : string) (pos : nat)
  : option (nat * nat) :=
  match skip with
  | O => search re prev s pos
  | S n =>
      match s with
      | EmptyString => None
      | String c s' => execAt re n (Some c) s' (S pos)
      end
  end.

Definition exec (re : RegExp) (lastIndex : nat) (s : string) : option (nat * nat) :=
  execAt re lastIndex None s 0.

(** [re.test(s)] on a global pattern whose [lastIndex] is the argument:
    the answer and the new [lastIndex] (the end of the match, or 0). *)
Definition test (re : RegExp) (lastIndex : nat) (s : string) : bool * nat :=
  match exec re lastIndex s with
  | Some (_, e) => (true, e)
  | None => (false, 0)
  end.

(** [re.test(s)] on a pattern freshly created by a literal ([lastIndex] 0). *)
Definition testFresh (re : RegExp) (s : string) : bool := fst (test re 0 s).

(** All successive matches from [lastIndex] on, as the iterator of
    [s.matchAll(re)] yields them: after a match the scan resumes at its
    end, one character further when the match is empty. *)
Fixpoint scanAll (re : RegExp) (skip : nat) (prev : option ascii) (s : string)
  {struct s} : list string :=
  match skip with
  | S n =>
      match s with
      | EmptyString => []
      | String c s' => scanAll re n (Some c) s'
      end
  | O =>
      match matchHere re prev s with
      | Some len =>
          substring 0 len s ::
          match s with
          | EmptyString => []
          | String c s' => scanAll re (len - 1) (Some c) s'
          end
      | None =>
          match s with
          | EmptyString => []
          | String c s' => scanAll re 0 (Some c) s'
          end
      end
  end.

(** [s.matchAll(re)]: the iterator works on a clone of [re] that starts at
    the [lastIndex] of [re]; [re] itself is left untouched. *)
Definition matchAll (re : RegExp) (lastIndex : nat) (s : string) : list string :=
  scanAll re lastIndex None s.

(** [s.match(re)] with the [g] flag: [lastIndex] is reset, every match is
    collected, and the answer is [null] when there is none. *)
Definition match_ (re : RegExp) (s : string) : option (list string) :=
  match scanAll re 0 None s with
  | [] => None
  | ms => Some ms
  end.

(** [s.split(re)]: the pieces between the matches of the separator. *)
Fixpoint splitAux (re : RegExp) (skip : nat) (prev : option ascii) (s : string)
  (cur : string) {struct s} : list string :=
  match s with
  | EmptyString => [cur]
  | String c s' =>
      match skip with
      | S n => splitAux re n (Some c) s' cur
      | O =>
          match matchHere re prev s with
          | Some (S len) => cur :: splitAux re len (Some c) s' EmptyString
          | Some O =>
              match cur with
              | EmptyString => splitAux re 0 (Some c) s' (String c EmptyString)
              | _ => cur :: splitAux re 0 (Some c) s' (String c EmptyString)
              end
          | None => splitAux re 0 (Some c) s' (cur ++ String c EmptyString)%string
          end
      end
  end.

Definition split (re : RegExp) (s : string) : list string :=
  match s with
  | EmptyString =>
      match matchHere re None s with Some _ => [] | None => [EmptyString] end
  | _ => splitAux re 0 None s EmptyString
  end.

End Regex.

Import Regex.

(* ===================================================================== *)
(** ** Types of the validation system *)
(* ===================================================================== *)

Inductive IssueType : Type :=
| TOPIC_IRRELEVANT | MISSING_SOURCE | HALLUCINATION | INCONSISTENCY
| INCOMPLETE | UNSAFE_CONTENT | LOW_QUALITY.

Inductive Severity : Type := LOW | MEDIUM | HIGH | CRITICAL.

Record ValidationIssue : Type := mkIssue {
  type : IssueType;
  severity : Severity;
  message : string;
  suggestion : option string
}.

Record ValidationResult : Type := mkResult {
  isValid : bool;
  validatedText : string;
  confidence : Q;
  issues : list ValidationIssue;
  sources : list string;
  suggestions : option (list string)
}.

Inductive SourceType : Type :=
| UU | PERPPU | PERPRES | PERATURAN | PUTUSAN | KUHP | KUHPERDATA | UUD.

Record LegalSource : Type := mkSource {
  sourceType : SourceType;
  fullCitation : string
}.

(** What every check returns: [{ score, maxScore, issues, sources }]. *)
Module Check.
Record Outcome : Type := mk {
  score : Q;
  maxScore : Q;
  issues : list ValidationIssue;
  sources : list string
}.
End Check.

Definition IssueType_eqb (a b : IssueType) : bool :=
  match a, b with
  | TOPIC_IRRELEVANT, TOPIC_IRRELEVANT | MISSING_SOURCE, MISSING_SOURCE
  | HALLUCINATION, HALLUCINATION | INCONSISTENCY, INCONSISTENCY
  | INCOMPLETE, INCOMPLETE | UNSAFE_CONTENT, UNSAFE_CONTENT
  | LOW_QUALITY, LOW_QUALITY => true
  | _, _ => false
  end.

Definition isCritical (i : ValidationIssue) : bool :=
  match severity i with CRITICAL => true | _ => false end.

(* ===================================================================== *)
(** ** The knowledge base and the keyword tables *)
(* ===================================================================== *)

(** A [Record<string, string>] is read through [Object.entries], in
    insertion order: an association list. *)
Module INDONESIAN_LAW_KB.

Definition constitutionalLaw : list (string * string) :=
  [ ("UUD 1945 Pasal 1", "Negara Indonesia ialah Negara Kesatuan, yang berbentuk Republik");
    ("UUD 1945 Pasal 27", "Segala warga negara bersamaan kedudukannya di dalam hukum dan pemerintahan");
    ("UUD 1945 Pasal 28", "Kemerdekaan berserikat dan berkumpul, mengeluarkan pikiran dengan lisan dan tulisan");
    ("UUD 1945 Pasal 28A", "Setiap orang berhak untuk hidup serta berhak mempertahankan hidup dan kehidupannya");
    ("UUD 1945 Pasal 28D", "Setiap orang berhak atas pengakuan, jaminan, perlindungan, dan kepastian hukum");
    ("UUD 1945 Pasal 28H", "Setiap orang berhak hidup sejahtera lahir dan batin, bertempat tinggal") ].

Definition criminalLaw : list (string * string) :=
  [ ("KUHP Pasal 362", "Pencurian diancam dengan pidana penjara paling lama lima tahun");
    ("KUHP Pasal 338", "Pembunuhan diancam dengan pidana penjara paling lama lima belas tahun");
    ("KUHP Pasal 351", "Penganiayaan diancam dengan pidana penjara paling lama dua tahun delapan bulan");
    ("KUHP Pasal 372", "Penggelapan diancam dengan pidana penjara paling lama empat tahun");
    ("KUHP Pasal 378", "Penipuan diancam dengan pidana penjara paling lama empat tahun") ].

Definition civilLaw : list (string * string) :=
  [ ("KUHPerdata Pasal 1320", "Syarat sahnya perjanjian: sepakat, cakap, hal tertentu, sebab halal");
    ("KUHPerdata Pasal 1365", "Perbuatan melawan hukum yang menimbulkan kerugian wajib mengganti");
    ("KUHPerdata Pasal 1131", "Segala kebendaan si berutang menjadi tanggungan untuk segala perikatan");
    ("KUHPerdata Pasal 584", "Hak milik adalah hak untuk menikmati kegunaan suatu kebendaan") ].

Definition commonMisconceptions : list (string * string) :=
  [ ("pidana_mati_dihapus", "SALAH: Pidana mati masih berlaku di Indonesia berdasarkan KUHP");
    ("poligami_bebas", "SALAH: Poligami harus mendapat izin pengadilan dengan syarat ketat");
    ("hukum_adat_tidak_berlaku", "SALAH: Hukum adat diakui sepanjang tidak bertentangan dengan UU") ].

End INDONESIAN_LAW_KB.

Module LEGAL_KEYWORDS.

Definition positive : list string :=
  [ "undang-undang"; "uu"; "perppu"; "perpres"; "peraturan"; "pasal"; "ayat";
    "kuhp"; "kuhperdata"; "kuhap"; "kuhd"; "uud"; "konstitusi";
    "hukum"; "pidana"; "perdata"; "administrasi"; "tata usaha negara";
    "mahkamah"; "pengadilan"; "hakim"; "jaksa"; "advokat"; "pengacara";
    "gugatan"; "tuntutan"; "dakwaan"; "putusan"; "vonis"; "eksekusi";
    "pelanggaran"; "kejahatan"; "tindak pidana"; "delik"; "perbuatan melawan hukum";
    "perjanjian"; "kontrak"; "wanprestasi"; "ganti rugi"; "denda";
    "hak asasi"; "ham"; "kebebasan"; "demokrasi"; "rule of law" ].

Definition negative : list string :=
  [ "resep"; "masakan"; "olahraga"; "musik"; "film"; "game"; "teknologi";
    "programming"; "coding"; "matematika"; "fisika"; "kimia"; "biologi";
    "agama"; "fikih"; "hadits"; "tafsir"; "ibadah"; "shalat"; "puasa";
    "ekonomi"; "bisnis"; "investasi"; "saham"; "cryptocurrency";
    "politik"; "partai"; "pemilu"; "kampanye"; "ideologi" ].

End LEGAL_KEYWORDS.

(** [/.../gi] *)
Definition gi (r : regex) : RegExp := mkRegExp r true.

(** [No\.?\s*] *)
Definition No_ : regex := seq [Str "No"; Opt (Lit "."); Many ws].

(** The citation grammar, in the order of the source. *)
Definition CITATION_PATTERNS : list RegExp :=
  [ (* /UU\s+No\.?\s*(\d+)\s+Tahun\s+(\d{4})/gi *)
    gi (seq [Str "UU"; Some_ ws; No_; Some_ digit; Some_ ws; Str "Tahun"; Some_ ws;
             Times 4 digit]);
    (* /Undang-Undang\s+Nomor\s+(\d+)\s+Tahun\s+(\d{4})/gi *)
    gi (seq [Str "Undang-Undang"; Some_ ws; Str "Nomor"; Some_ ws; Some_ digit; Some_ ws;
             Str "Tahun"; Some_ ws; Times 4 digit]);
    (* /Perppu\s+No\.?\s*(\d+)\/(\d{4})/gi *)
    gi (seq [Str "Perppu"; Some_ ws; No_; Some_ digit; Lit "/"; Times 4 digit]);
    (* /Perpres\s+No\.?\s*(\d+)\s+Tahun\s+(\d{4})/gi *)
    gi (seq [Str "Perpres"; Some_ ws; No_; Some_ digit; Some_ ws; Str "Tahun"; Some_ ws;
             Times 4 digit]);
    (* /KUHP\s+Pasal\s+(\d+)/gi *)
    gi (seq [Str "KUHP"; Some_ ws; Str "Pasal"; Some_ ws; Some_ digit]);
    (* /KUHPerdata\s+Pasal\s+(\d+)/gi *)
    gi (seq [Str "KUHPerdata"; Some_ ws; Str "Pasal"; Some_ ws; Some_ digit]);
    (* /KUHAP\s+Pasal\s+(\d+)/gi *)
    gi (seq [Str "KUHAP"; Some_ ws; Str "Pasal"; Some_ ws; Some_ digit]);
    (* /UUD\s+1945\s+Pasal\s+(\d+[A-Z]?)/gi *)
    gi (seq [Str "UUD"; Some_ ws; Str "1945"; Some_ ws; Str "Pasal"; Some_ ws;
             Some_ digit; Opt AZ]);
    (* /Putusan\s+MK\s+No\.?\s*(\d+\/[A-Z]+-[A-Z]+\/\d{4})/gi *)
    gi (seq [Str "Putusan"; Some_ ws; Str "MK"; Some_ ws; No_;
             Some_ digit; Lit "/"; Some_ AZ; Lit "-"; Some_ AZ; Lit "/"; Times 4 digit]);
    (* /Putusan\s+MA\s+No\.?\s*(\d+\s*K\/[A-Z]+\/\d{4})/gi *)
    gi (seq [Str "Putusan"; Some_ ws; Str "MA"; Some_ ws; No_;
             Some_ digit; Many ws; Lit "K"; Lit "/"; Some_ AZ; Lit "/"; Times 4 digit]) ].

(** The mutable part of [CITATION_PATTERNS]: the [lastIndex] of each
    pattern, by position.  A missing entry reads as 0. *)
Definition Store : Type := list nat.

Definition lastIndex (st : Store) (i : nat) : nat := nth i st 0.

Fixpoint setLastIndex (st : Store) (i v : nat) : Store :=
  match i, st with
  | O, [] => [v]
  | O, _ :: t => v :: t
  | S i', [] => 0 :: setLastIndex [] i' v
  | S i', x :: t => x :: setLastIndex t i' v
  end.

(** The store right after the module is loaded. *)
Definition freshStore : Store := map (fun _ => 0) CITATION_PATTERNS.

(* ===================================================================== *)
(** ** Numbers *)
(* ===================================================================== *)

Definition ofNat (n : nat) : Q := inject_Z (Z.of_nat n).
Definition Qltb (a b : Q) : bool := negb (Qle_bool b a).
Definition Qleb (a b : Q) : bool := Qle_bool a b.
Definition Math_max (a b : Q) : Q := Qmax a b.
Definition Math_min (a b : Q) : Q := Qmin a b.

(** Keeps the first occurrence of each string: [[...new Set(xs)]]. *)
Fixpoint uniqueFrom (seen : list string) (xs : list string) : list string :=
  match xs with
  | [] => []
  | x :: xs' =>
      if existsb (String.eqb x) seen then uniqueFrom seen xs'
      else x :: uniqueFrom (x :: seen) xs'
  end.

Definition unique (xs : list string) : list string := uniqueFrom [] xs.

(* ===================================================================== *)
(** ** The validator *)
(* ===================================================================== *)

Local Open Scope Q_scope.

(** The double-quote character, as a one-character string. *)
Definition dquote : string := String (ascii_of_nat 34) EmptyString.

(** How a call ends: with a value, or with an exception. *)
Inductive Completion (A : Type) : Type :=
| Returned (a : A)
| Thrown (error : string).
Arguments Returned {A} a.
Arguments Thrown {A} error.

Section IndonesianLawValidator.

(** [stringSimilarity.compareTwoStrings], from the package
    [string-similarity]. *)
Variable compareTwoStrings : string -> string -> Q.

(** A running check: the score so far and the issues pushed so far. *)
Definition Acc : Type := (Q * list ValidationIssue)%type.

Definition push (a : Acc) (i : ValidationIssue) (delta : Q) : Acc :=
  (fst a - delta, snd a ++ [i]).

Definition finish (a : Acc) (srcs : list string) : Check.Outcome :=
  Check.mk (Math_max 0 (fst a)) 10 (snd a) srcs.

(** *** Topic relevance *)

Definition countMatches (text : string) (keywords : list string) : nat :=
  List.length (filter (fun keyword => JS.includes text (JS.toLowerCase keyword)) keywords).

Definition validateTopicRelevance (query response : string) : Check.Outcome :=
  let text := JS.toLowerCase (query ++ " " ++ response)%string in
  let positiveMatches := countMatches text LEGAL_KEYWORDS.positive in
  let negativeMatches := countMatches text LEGAL_KEYWORDS.negative in
  let relevanceScore := ofNat positiveMatches - ofNat negativeMatches * 2 in
  let score := Math_max 0 (Math_min 10 relevanceScore) in
  let issues :=
    if Qltb score 3 then
      [ mkIssue TOPIC_IRRELEVANT CRITICAL
          "Query appears to be outside Indonesian law topics"
          (Some "Please ask about Indonesian laws, regulations, or legal procedures") ]
    else if (0 <? negativeMatches)%nat then
      [ mkIssue TOPIC_IRRELEVANT MEDIUM
          "Response contains some non-legal content"
          (Some "Focus the response strictly on Indonesian legal matters") ]
    else [] in
  Check.mk score 10 issues [].

(** *** Source citations *)

Definition determineCitationType (citation : string) : SourceType :=
  if JS.includes citation "UU" || JS.includes citation "Undang-Undang" then UU
  else if JS.includes citation "Perppu" then PERPPU
  else if JS.includes citation "Perpres" then PERPRES
  else if JS.includes citation "KUHP" then KUHP
  else if JS.includes citation "KUHPerdata" then KUHPERDATA
  else if JS.includes citation "UUD" then UUD
  else if JS.includes citation "Putusan" then PUTUSAN
  else PERATURAN.

(** [patterns.some(pattern => pattern.test(citation))], the patterns being
    those of [CITATION_PATTERNS] from position [i] on: each [test] reads and
    writes the [lastIndex] of its pattern, and [some] stops at the first
    success. *)
Fixpoint someTest (patterns : list RegExp) (i : nat) (citation : string) (st : Store)
  : bool * Store :=
  match patterns with
  | [] => (false, st)
  | pattern :: rest =>
      let '(ok, li) := test pattern (lastIndex st i) citation in
      let st' := setLastIndex st i li in
      if ok then (true, st') else someTest rest (S i) citation st'
  end.

Definition isValidCitationFormat (citation : string) (st : Store) : bool * Store :=
  someTest CITATION_PATTERNS 0 citation st.

(** The first [forEach] of [validateSourceCitations]: every match of every
    pattern, pattern by pattern.  [matchAll] reads [lastIndex] and does not
    write it. *)
Fixpoint extractFrom (patterns : list RegExp) (i : nat) (response : string) (st : Store)
  : list LegalSource :=
  match patterns with
  | [] => []
  | pattern :: rest =>
      map (fun m => mkSource (determineCitationType m) m)
          (matchAll pattern (lastIndex st i) response)
      ++ extractFrom rest (S i) response st
  end.

Definition extractCitations (response : string) (st : Store) : list LegalSource :=
  extractFrom CITATION_PATTERNS 0 response st.

Definition malformedIssue (citation : LegalSource) : ValidationIssue :=
  mkIssue MISSING_SOURCE LOW
    ("Citation format may be incorrect: " ++ fullCitation citation)%string
    (Some "Use standard Indonesian legal citation format").

(** The second [forEach]: re-validation of the citations found. *)
Fixpoint validateFormats (found : list LegalSource) (st : Store)
  : list ValidationIssue * Store :=
  match found with
  | [] => ([], st)
  | citation :: rest =>
      let '(ok, st1) := isValidCitationFormat (fullCitation citation) st in
      let '(more, st2) := validateFormats rest st1 in
      ((if ok then [] else [malformedIssue citation]) ++ more, st2)
  end.

Definition noCitationIssue : ValidationIssue :=
  mkIssue MISSING_SOURCE CRITICAL
    "No legal source citations found in response"
    (Some "Include specific references to Indonesian laws (UU, KUHP, etc.) with article numbers").

Definition validateSourceCitations (response : string) (st : Store)
  : Check.Outcome * Store :=
  let foundCitations := extractCitations response st in
  let sources := map fullCitation foundCitations in
  let citationCount := List.length foundCitations in
  let responseLength := String.length response in
  let expectedCitations := Nat.max 1 (responseLength / 200) in
  let score0 := Math_min 10 (ofNat citationCount / ofNat expectedCitations * 10) in
  let '(score, issues0) :=
    if (citationCount =? 0)%nat then (0, [noCitationIssue])
    else if (citationCount <? expectedCitations)%nat then
      (score0,
       [ mkIssue MISSING_SOURCE MEDIUM
           "Insufficient source citations for response length"
           (Some "Add more specific legal references to support claims") ])
    else (score0, []) in
  let '(formatIssues, st') := validateFormats foundCitations st in
  (Check.mk score 10 (issues0 ++ formatIssues) sources, st').

(** *** Hallucinations *)

Definition misconceptionStep (response : string) (a : Acc) (entry : string * string) : Acc :=
  let '(misconception, truth) := entry in
  if JS.includes (JS.toLowerCase response) (JS.replace misconception "_" " ") then
    push a (mkIssue HALLUCINATION HIGH
              ("Potential misconception detected: " ++ truth)%string
              (Some "Verify this claim against current Indonesian law")) 3
  else a.

Definition knowledgeEntries : list (string * string) :=
  INDONESIAN_LAW_KB.constitutionalLaw ++ INDONESIAN_LAW_KB.criminalLaw
  ++ INDONESIAN_LAW_KB.civilLaw.

Definition knowledgeStep (response : string) (a : Acc) (entry : string * string) : Acc :=
  let '(key, value) := entry in
  if JS.includes response key then
    let similarity := compareTwoStrings (JS.toLowerCase response) (JS.toLowerCase value) in
    if Qltb similarity (3 # 10) then
      push a (mkIssue HALLUCINATION MEDIUM
                ("Content about " ++ key ++ " may not align with established law")%string
                (Some "Double-check this legal provision")) 2
    else a
  else a.

Definition absolutePatterns : list RegExp :=
  [ gi (seq [Str "selalu"; Some_ ws; Some_ word]);         (* /selalu\s+\w+/gi *)
    gi (seq [Str "tidak pernah"; Some_ ws; Some_ word]);   (* /tidak pernah\s+\w+/gi *)
    gi (seq [Str "semua"; Some_ ws; Some_ word]);          (* /semua\s+\w+/gi *)
    gi (seq [Str "tidak ada"; Some_ ws; Some_ word]) ].    (* /tidak ada\s+\w+/gi *)

Definition absoluteStep (response : string) (a : Acc) (pattern : RegExp) : Acc :=
  match match_ pattern response with
  | Some (_ :: _) =>
      push a (mkIssue HALLUCINATION LOW
                "Absolute statements should be avoided without clear legal basis"
                (Some "Use more qualified language or provide specific citations")) 1
  | _ => a
  end.

Definition detectHallucinations (response : string) : Check.Outcome :=
  let a0 : Acc := (10, []) in
  let a1 := fold_left (misconceptionStep response) INDONESIAN_LAW_KB.commonMisconceptions a0 in
  let a2 := fold_left (knowledgeStep response) knowledgeEntries a1 in
  let a3 := fold_left (absoluteStep response) absolutePatterns a2 in
  finish a3 [].

(** *** Logical consistency *)

(** [/[.!?]+/] *)
Definition sentenceBreak : RegExp := mkRegExp (Some_ (oneOf ".!?")) false.

Definition sentencesLongerThan (n : nat) (response : string) : list string :=
  filter (fun s => (n <? String.length (JS.trim s))%nat) (split sentenceBreak response).

Definition contradictoryPairs : list (string * string) :=
  [ ("dilarang", "diperbolehkan");
    ("wajib", "tidak wajib");
    ("harus", "tidak harus");
    ("boleh", "tidak boleh");
    ("legal", "ilegal") ].

(** [None] stands for [Infinity]. *)
Definition findWordDistance (text word1 word2 : string) : option nat :=
  match JS.indexOf text word1, JS.indexOf text word2 with
  | Some index1, Some index2 => Some ((index1 - index2) + (index2 - index1))%nat
  | _, _ => None
  end.

Definition contradictionIssue (pos neg : string) : ValidationIssue :=
  mkIssue INCONSISTENCY HIGH
    ("Potential contradiction found between " ++ dquote ++ pos ++ dquote ++ " and "
       ++ dquote ++ neg ++ dquote)%string
    (Some "Clarify the specific circumstances for each statement").

(** Does the pair fire on the response? *)
Definition contradicts (response : string) (pair : string * string) : bool :=
  let '(pos, neg) := pair in
  let hasPositive := JS.includes (JS.toLowerCase response) pos in
  let hasNegative := JS.includes (JS.toLowerCase response) neg in
  if hasPositive && hasNegative then
    match findWordDistance (JS.toLowerCase response) pos neg with
    | Some distance => (distance <? 50)%nat
    | None => false
    end
  else false.

Definition contradictionStep (response : string) (a : Acc) (pair : string * string) : Acc :=
  if contradicts response pair
  then push a (contradictionIssue (fst pair) (snd pair)) 3
  else a.

(** The number of adjacent sentences whose similarity exceeds 0.2. *)
Fixpoint flowScore (sentences : list string) : nat :=
  match sentences with
  | s1 :: (s2 :: _) as rest =>
      (if Qltb (2 # 10) (compareTwoStrings (JS.toLowerCase s1) (JS.toLowerCase s2))
       then 1 else 0) + flowScore rest
  | _ => 0
  end%nat.

(** The test of the logical-flow block: at least three sentences, and
    fewer than 30% of the adjacent pairs similar. *)
Definition lacksFlow (response : string) : bool :=
  let sentences := sentencesLongerThan 10 response in
  if (3 <=? List.length sentences)%nat then
    let expectedFlow := (List.length sentences - 1)%nat in
    Qltb (ofNat (flowScore sentences)) (ofNat expectedFlow * (3 # 10))
  else false.

Definition flowStep (response : string) (a : Acc) : Acc :=
  if lacksFlow response then
    push a (mkIssue INCONSISTENCY LOW
              "Response may lack logical flow between statements"
              (Some "Ensure ideas are connected and build upon each other")) 1
  else a.

Definition checkLogicalConsistency (response : string) : Check.Outcome :=
  let a0 : Acc := (10, []) in
  let a1 := fold_left (contradictionStep response) contradictoryPairs a0 in
  let a2 := flowStep response a1 in
  finish a2 [].

(** *** Completeness *)

(** [/\d+[\.\)]\s|\bpertama\b|\bkedua\b|\bketiga\b|\blangkah\b/gi] *)
Definition stepsPattern : RegExp :=
  gi (Or (seq [Some_ digit; oneOf ".)"; ws])
     (Or (seq [Boundary; Str "pertama"; Boundary])
     (Or (seq [Boundary; Str "kedua"; Boundary])
     (Or (seq [Boundary; Str "ketiga"; Boundary])
         (seq [Boundary; Str "langkah"; Boundary]))))).

Definition proceduralStep (query response : string) (a : Acc) : Acc :=
  if JS.includes (JS.toLowerCase query) "cara" || JS.includes (JS.toLowerCase query) "prosedur" then
    let hasSteps := testFresh stepsPattern response in
    if negb hasSteps then
      push a (mkIssue INCOMPLETE MEDIUM
                "Procedural query should include step-by-step guidance"
                (Some "Provide numbered steps or clear sequence of actions")) 3
    else a
  else a.

Definition brevityStep (query response : string) (a : Acc) : Acc :=
  if (50 <? String.length query)%nat && (String.length response <? 100)%nat then
    push a (mkIssue INCOMPLETE MEDIUM
              "Response appears too brief for the complexity of the query"
              (Some "Provide more detailed explanation with relevant context")) 2
  else a.

Definition definitionStep (query response : string) (a : Acc) : Acc :=
  if JS.includes (JS.toLowerCase query) "apa itu" || JS.includes (JS.toLowerCase query) "definisi" then
    let hasDefinition :=
      JS.includes (JS.toLowerCase response) "adalah"
      || JS.includes (JS.toLowerCase response) "yaitu"
      || JS.includes (JS.toLowerCase response) "merupakan" in
    if negb hasDefinition then
      push a (mkIssue INCOMPLETE LOW
                "Definition query should include clear definition"
                (Some ("Provide explicit definition using " ++ dquote ++ "adalah" ++ dquote
                       ++ " or " ++ dquote ++ "yaitu" ++ dquote)%string)) 1
    else a
  else a.

Definition validateCompleteness (query response : string) : Check.Outcome :=
  let a0 : Acc := (10, []) in
  let a1 := proceduralStep query response a0 in
  let a2 := brevityStep query response a1 in
  let a3 := definitionStep query response a2 in
  finish a3 [].

(** *** Unsafe content *)

Definition unsafePatterns : list RegExp :=
  [ gi (seq [Str "cara"; Many dot; Str "korupsi"]);                        (* /cara.*korupsi/gi *)
    gi (seq [Str "cara"; Many dot; Str "suap"]);                           (* /cara.*suap/gi *)
    gi (seq [Str "cara"; Many dot; Str "menghindar"; Many dot; Str "hukum"]); (* /cara.*menghindar.*hukum/gi *)
    gi (seq [Str "cara"; Many dot; Str "melanggar"]);                      (* /cara.*melanggar/gi *)
    gi (seq [Str "tips"; Many dot; Str "menghindari"; Many dot; Str "sanksi"]) ]. (* /tips.*menghindari.*sanksi/gi *)

Definition inappropriatePatterns : list RegExp :=
  [ gi (seq [Str "pasti"; Many dot; Str "menang"]);          (* /pasti.*menang/gi *)
    gi (seq [Str "dijamin"; Many dot; Str "bebas"]);         (* /dijamin.*bebas/gi *)
    gi (seq [Str "tidak akan"; Many dot; Str "ketahuan"]) ]. (* /tidak akan.*ketahuan/gi *)

Definition unsafeIssue : ValidationIssue :=
  mkIssue UNSAFE_CONTENT CRITICAL
    "Response contains potentially harmful legal advice"
    (Some "Focus on legal compliance and proper procedures instead").

Definition inappropriateIssue : ValidationIssue :=
  mkIssue UNSAFE_CONTENT HIGH
    "Response provides inappropriate legal assurances"
    (Some "Avoid giving absolute guarantees about legal outcomes").

(** [score = 0] : the running score is overwritten, not decremented. *)
Definition unsafeStep (response : string) (a : Acc) (pattern : RegExp) : Acc :=
  if testFresh pattern response then (0, snd a ++ [unsafeIssue]) else a.

Definition inappropriateStep (response : string) (a : Acc) (pattern : RegExp) : Acc :=
  if testFresh pattern response then push a inappropriateIssue 4 else a.

Definition checkUnsafeContent (response : string) : Check.Outcome :=
  let a0 : Acc := (10, []) in
  let a1 := fold_left (unsafeStep response) unsafePatterns a0 in
  let a2 := fold_left (inappropriateStep response) inappropriatePatterns a1 in
  finish a2 [].

(** *** Quality *)

Definition formalWords : list string :=
  [ "berdasarkan"; "sebagaimana"; "dimaksud"; "ketentuan"; "peraturan";
    "undang-undang"; "pasal"; "ayat"; "huruf"; "angka"; "jo"; "juncto" ].

(** [/\s+/] *)
Definition blanks : RegExp := mkRegExp (Some_ ws) false.

Definition assessFormalLanguage (text : string) : Q :=
  let words := split blanks (JS.toLowerCase text) in
  let formalCount :=
    List.length (filter (fun word => existsb (fun formal => JS.includes word formal) formalWords)
                   words) in
  Math_min 10 (ofNat formalCount / ofNat (List.length words) * 100).

(** The number of pairs [i < j] of sentences whose similarity exceeds 0.8. *)
Fixpoint repetitionCount (sentences : list string) : nat :=
  match sentences with
  | [] => 0
  | s :: rest =>
      (List.length
         (filter (fun s' => Qltb (8 # 10) (compareTwoStrings (JS.toLowerCase s) (JS.toLowerCase s')))
            rest)
       + repetitionCount rest)
  end%nat.

Definition lengthStep (response : string) (a : Acc) : Acc :=
  if (String.length response <? 50)%nat then
    push a (mkIssue LOW_QUALITY MEDIUM
              "Response is too short to be informative"
              (Some "Provide more detailed explanation")) 3
  else a.

Definition repetitionStep (response : string) (a : Acc) : Acc :=
  if (1 <? repetitionCount (sentencesLongerThan 5 response))%nat then
    push a (mkIssue LOW_QUALITY LOW
              "Response contains repetitive content"
              (Some "Vary the language and avoid redundancy")) 2
  else a.

Definition formalityStep (response : string) (a : Acc) : Acc :=
  if Qltb (assessFormalLanguage response) 5 then
    push a (mkIssue LOW_QUALITY LOW
              "Response should use more formal legal language"
              (Some "Use appropriate legal terminology and formal Indonesian")) 1
  else a.

Definition assessQuality (response : string) : Check.Outcome :=
  let a0 : Acc := (10, []) in
  let a1 := lengthStep response a0 in
  let a2 := repetitionStep response a1 in
  let a3 := formalityStep response a2 in
  finish a3 [].

(** *** Suggestions *)

Definition hasType (t : IssueType) (issues : list ValidationIssue) : bool :=
  existsb (fun issue => IssueType_eqb (type issue) t) issues.

Definition truthy (s : string) : bool :=
  match s with EmptyString => false | _ => true end.

Definition generateSuggestions (issues : list ValidationIssue) : list string :=
  let own :=
    flat_map (fun issue =>
                match suggestion issue with
                | Some s => if truthy s then [s] else []
                | None => []
                end) issues in
  let general :=
    (if hasType MISSING_SOURCE issues
     then ["Include specific references to Indonesian laws with article numbers"] else [])
    ++ (if hasType TOPIC_IRRELEVANT issues
        then ["Focus strictly on Indonesian legal topics and regulations"] else [])
    ++ (if hasType INCOMPLETE issues
        then ["Provide more comprehensive coverage of the legal topic"] else []) in
  unique (own ++ general).

(** *** The orchestrator *)

(** A check as [validateResponse] sees it: it may read and write the store
    and may throw. *)
Definition CheckRun : Type := Store -> Completion Check.Outcome * Store.

Definition pureCheck (o : Check.Outcome) : CheckRun := fun st => (Returned o, st).

(** The elements of the array literal handed to [Promise.all] are
    evaluated from left to right; an [async] function that throws yields a
    rejected promise and the evaluation goes on. *)
Fixpoint runChecks (checks : list CheckRun) (st : Store)
  : list (Completion Check.Outcome) * Store :=
  match checks with
  | [] => ([], st)
  | check :: rest =>
      let '(c, st1) := check st in
      let '(cs, st2) := runChecks rest st1 in
      (c :: cs, st2)
  end.

(** [await Promise.all(...)]: the values in order, or the first rejection. *)
Fixpoint promiseAll (cs : list (Completion Check.Outcome))
  : Completion (list Check.Outcome) :=
  match cs with
  | [] => Returned []
  | Thrown e :: _ => Thrown e
  | Returned o :: rest =>
      match promiseAll rest with
      | Returned os => Returned (o :: os)
      | Thrown e => Thrown e
      end
  end.

Definition totalScore (checks : list Check.Outcome) : Q :=
  fold_left (fun total check => total + Check.score check) checks 0.

Definition totalMax (checks : list Check.Outcome) : Q :=
  fold_left (fun total check => total + Check.maxScore check) checks 0.

Definition aggregate (aiResponse : string) (checks : list Check.Outcome) : ValidationResult :=
  let issues := flat_map Check.issues checks in
  let sources := flat_map Check.sources checks in
  let maxScore := totalMax checks in
  let confidence := if Qltb 0 maxScore then totalScore checks / maxScore * 100 else 0 in
  let isValid := Qleb 70 confidence && negb (existsb isCritical issues) in
  mkResult isValid aiResponse confidence issues (unique sources)
    (if negb isValid then Some (generateSuggestions issues) else None).

(** The result built in the [catch] block. *)
Definition fallback (aiResponse : string) : ValidationResult :=
  mkResult false aiResponse 0
    [ mkIssue LOW_QUALITY CRITICAL
        "Validation system error occurred"
        (Some "Please try again with a different query") ]
    [] None.

(** The body of [validateResponse], for any seven (or more, or fewer)
    checks: [try { ... } catch { ... }]. *)
Definition orchestrate (checks : list CheckRun) (aiResponse : string) (st : Store)
  : ValidationResult * Store :=
  let '(cs, st') := runChecks checks st in
  match promiseAll cs with
  | Returned outcomes => (aggregate aiResponse outcomes, st')
  | Thrown _ => (fallback aiResponse, st')
  end.

(** The seven checks of the validator, in the order of the source. *)
Definition theChecks (userQuery aiResponse : string) : list CheckRun :=
  [ pureCheck (validateTopicRelevance userQuery aiResponse);
    (fun st => let '(o, st') := validateSourceCitations aiResponse st in (Returned o, st'));
    pureCheck (detectHallucinations aiResponse);
    pureCheck (checkLogicalConsistency aiResponse);
    pureCheck (validateCompleteness userQuery aiResponse);
    pureCheck (checkUnsafeContent aiResponse);
    pureCheck (assessQuality aiResponse) ].

(** [validateResponse(userQuery, aiResponse)]; the third parameter of the
    source, [maxRetries], is never read. *)
Definition validateResponse (userQuery aiResponse : string) (st : Store)
  : ValidationResult * Store :=
  orchestrate (theChecks userQuery aiResponse) aiResponse st.

(** The outcomes of the seven checks of one call, in order. *)
Definition checkOutcomes (userQuery aiResponse : string) (st : Store) : list Check.Outcome :=
  [ validateTopicRelevance userQuery aiResponse;
    fst (validateSourceCitations aiResponse st);
    detectHallucinations aiResponse;
    checkLogicalConsistency aiResponse;
    validateCompleteness userQuery aiResponse;
    checkUnsafeContent aiResponse;
    assessQuality aiResponse ].

End IndonesianLawValidator.

(** A reference implementation of [compareTwoStrings] (the Dice coefficient
    over character bigrams, white space removed), used to run the validator
    on concrete inputs. *)
Module StringSimilarity.

Fixpoint removeBlanks (s : string) : string :=
  match s with
  | EmptyString => EmptyString
  | String c s' => if JS.isSpace c then removeBlanks s' else String c (removeBlanks s')
  end.

Fixpoint bigrams (s : string) : list (ascii * ascii) :=
  match s with
  | String a (String b _ as s') => (a, b) :: bigrams s'
  | _ => []
  end.

Definition sameBigram (x y : ascii * ascii) : bool :=
  Ascii.eqb (fst x) (fst y) && Ascii.eqb (snd x) (snd y).

(** Removes one occurrence of [x], when there is one. *)
Fixpoint take (x : ascii * ascii) (pool : list (ascii * ascii))
  : option (list (ascii * ascii)) :=
  match pool with
  | [] => None
  | y :: pool' =>
      if sameBigram x y then Some pool'
      else match take x pool' with
           | Some p => Some (y :: p)
           | None => None
           end
  end.

Fixpoint intersectionSize (second pool : list (ascii * ascii)) : nat :=
  match second with
  | [] => 0
  | x :: rest =>
      match take x pool with
      | Some pool' => S (intersectionSize rest pool')
      | None => intersectionSize rest pool
      end
  end.

Definition compareTwoStrings (first second : string) : Q :=
  let first := removeBlanks first in
  let second := removeBlanks second in
  if String.eqb first second then 1
  else if (String.length first <? 2)%nat || (String.length second <? 2)%nat then 0
  else ofNat (2 * intersectionSize (bigrams second) (bigrams first))
       / ofNat (String.length first + String.length second - 2).

End StringSimilarity.

(* ===================================================================== *)
(** ** The error message of a rejected response *)
(* ===================================================================== *)

Module Messages.
Definition offTopic : string :=
  "Maaf, saya hanya dapat membantu dengan pertanyaan tentang hukum Indonesia. Silakan tanyakan tentang undang-undang, peraturan, atau aspek hukum lainnya yang berlaku di Indonesia.".
Definition missingSource : string :=
  "Respons memerlukan sumber hukum yang valid (UU/Peraturan). Silakan ajukan pertanyaan yang lebih spesifik agar saya dapat memberikan jawaban dengan rujukan yang tepat.".
Definition unsafeContent : string :=
  "Maaf, saya tidak dapat memberikan informasi yang dapat digunakan untuk melanggar hukum. Silakan tanyakan tentang cara mematuhi peraturan yang berlaku.".
Definition notValidated : string :=
  "Respons tidak dapat divalidasi sebagai informasi hukum yang akurat. Silakan coba dengan pertanyaan yang lebih spesifik tentang hukum Indonesia.".
Definition incomplete : string :=
  "Informasi yang diberikan mungkin tidak lengkap atau akurat. Untuk kepastian hukum, konsultasikan dengan ahli hukum yang berwenang.".
End Messages.

(** [generateErrorMessage(result)]: the first CRITICAL issue decides. *)
Definition generateErrorMessage (result : ValidationResult) : string :=
  let criticalIssues := filter isCritical (issues result) in
  match criticalIssues with
  | issue :: _ =>
      match type issue with
      | TOPIC_IRRELEVANT => Messages.offTopic
      | MISSING_SOURCE => Messages.missingSource
      | UNSAFE_CONTENT => Messages.unsafeContent
      | _ => Messages.notValidated
      end
  | [] => Messages.incomplete
  end.

(* ===================================================================== *)
(** ** The callers: request limits and input sanitization *)
(* ===================================================================== *)

(** [s.replace(re, by)] for a pattern with the [g] flag: every match, from
    index 0 on, is replaced; after an empty match the scan moves one
    character further. *)
Fixpoint replaceAux (re : RegExp) (by_ : string) (skip : nat) (prev : option ascii)
  (s : string) {struct s} : string :=
  match s with
  | EmptyString =>
      match skip with
      | O => match matchHere re prev s with Some _ => by_ | None => EmptyString end
      | S _ => EmptyString
      end
  | String c s' =>
      match skip with
      | S n => replaceAux re by_ n (Some c) s'
      | O =>
          match matchHere re prev s with
          | Some (S len) => (by_ ++ replaceAux re by_ len (Some c) s')%string
          | Some O => (by_ ++ String c (replaceAux re by_ 0 (Some c) s'))%string
          | None => String c (replaceAux re by_ 0 (Some c) s')
          end
      end
  end.

Definition replaceAll (re : RegExp) (by_ : string) (s : string) : string :=
  replaceAux re by_ 0 None s.

(** The IP-based limiter of the chat endpoint ([pages/api/chat.ts]).
    [Date.now()] and the parsed [RATE_LIMIT_RPM] are parameters.  The
    source computes on doubles and the model on integers; the two agree
    as long as the limit is at most 2^53, where [maxRequests - 1],
    [count + 1] and [maxRequests - count] are exact. *)
Module ChatApi.

Record Window : Type := mkWindow { count : Z; resetTime : Z }.

(** [rateLimitStore]: a [Map] from keys to windows. *)
Definition RateLimitStore : Type := string -> option Window.

Definition emptyStore : RateLimitStore := fun _ => None.

Definition set (store : RateLimitStore) (key : string) (w : Window) : RateLimitStore :=
  fun k => if String.eqb k key then Some w else store k.

Record RateLimit : Type := mkRateLimit {
  allowed : bool;
  remaining : Z;
  limitResetTime : Z
}.

Definition keyOf (clientIp : string) : string := ("rate_limit_" ++ clientIp)%string.

Definition checkRateLimit (maxRequests now : Z) (clientIp : string) (store : RateLimitStore)
  : RateLimit * RateLimitStore :=
  let windowMs := (60 * 1000)%Z in
  let key := keyOf clientIp in
  let fresh :=
    let resetTime := (now + windowMs)%Z in
    (mkRateLimit true (maxRequests - 1)%Z resetTime, set store key (mkWindow 1 resetTime)) in
  match store key with
  | None => fresh
  | Some current =>
      if (resetTime current <? now)%Z then fresh
      else if (maxRequests <=? count current)%Z then
        (mkRateLimit false 0 (resetTime current), store)
      else
        let current' := mkWindow (count current + 1)%Z (resetTime current) in
        (mkRateLimit true (maxRequests - count current')%Z (resetTime current'),
         set store key current')
  end.

(** A sequence of requests, each with its arrival time and client. *)
Fixpoint serve (maxRequests : Z) (requests : list (Z * string)) (store : RateLimitStore)
  : list RateLimit * RateLimitStore :=
  match requests with
  | [] => ([], store)
  | (now, clientIp) :: rest =>
      let '(r, store1) := checkRateLimit maxRequests now clientIp store in
      let '(rs, store2) := serve maxRequests rest store1 in
      (r :: rs, store2)
  end.

(** Every window of the store has counted between 1 and [maxRequests]
    requests. *)
Definition bounded (maxRequests : Z) (store : RateLimitStore) : Prop :=
  forall key w, store key = Some w -> (1 <= count w <= maxRequests)%Z.

(** What a single answer may look like. *)
Definition wellFormed (maxRequests : Z) (r : RateLimit) : Prop :=
  if allowed r then (0 <= remaining r < maxRequests)%Z else remaining r = 0%Z.

(** Requests of one client that all arrive before the window closes. *)
Definition withinWindow (clientIp : string) (closes : Z) (requests : list (Z * string)) : Prop :=
  Forall (fun request => snd request = clientIp /\ (fst request <= closes)%Z) requests.

Definition allowedCount (rs : list RateLimit) : nat := List.length (filter allowed rs).

End ChatApi.

(** The per-client limiter and the input sanitizer of the model client
    ([lib/gemini.ts]). *)
Module Gemini.

(** [RateLimiter.requests]: a [Map] from identifiers to time stamps. *)
Definition Requests : Type := string -> option (list Z).

Definition noRequests : Requests := fun _ => None.

Definition set (requests : Requests) (identifier : string) (times : list Z) : Requests :=
  fun k => if String.eqb k identifier then Some times else requests k.

(** [this.requests.get(identifier) || []] *)
Definition timesOf (requests : Requests) (identifier : string) : list Z :=
  match requests identifier with Some times => times | None => [] end.

Definition canMakeRequest (maxRequests windowMs now : Z) (identifier : string)
  (requests : Requests) : bool * Requests :=
  let validRequests :=
    filter (fun time => (now - time <? windowMs)%Z) (timesOf requests identifier) in
  if (maxRequests <=? Z.of_nat (List.length validRequests))%Z then (false, requests)
  else (true, set requests identifier (validRequests ++ [now])).

(** [Math.min(...requests)] on a non-empty list. *)
Definition oldest (first : Z) (rest : list Z) : Z := fold_left Z.min rest first.

Definition getTimeUntilReset (windowMs now : Z) (identifier : string) (requests : Requests)
  : Z :=
  match timesOf requests identifier with
  | [] => 0%Z
  | first :: rest =>
      let oldestRequest := oldest first rest in
      let timeUntilReset := (windowMs - (now - oldestRequest))%Z in
      Z.max 0 timeUntilReset
  end.

Fixpoint serve (maxRequests windowMs : Z) (calls : list (Z * string)) (requests : Requests)
  : list bool * Requests :=
  match calls with
  | [] => ([], requests)
  | (now, identifier) :: rest =>
      let '(ok, requests1) := canMakeRequest maxRequests windowMs now identifier requests in
      let '(oks, requests2) := serve maxRequests windowMs rest requests1 in
      (ok :: oks, requests2)
  end.

(** The character class of [sanitizeInput], with the [g] flag: less-than,
    greater-than, double quote, apostrophe and ampersand. *)
Definition markup : RegExp :=
  mkRegExp (oneOf ("<>" ++ String (ascii_of_nat 34) "'&")) false.

(** [sanitizeInput(input)] on a string argument. *)
Definition sanitizeInput (input : string) : Completion string :=
  if negb (truthy input) then Thrown "Invalid input: message must be a non-empty string"
  else
    let sanitized := substring 0 1000 (replaceAll markup EmptyString (JS.trim input)) in
    if (String.length sanitized =? 0)%nat then Thrown "Input is empty after sanitization"
    else Returned sanitized.

(** Every stored list of time stamps is non-empty and no longer than the
    limit. *)
Definition bounded (maxRequests : Z) (requests : Requests) : Prop :=
  forall identifier times,
    requests identifier = Some times ->
    (1 <= Z.of_nat (List.length times) <= maxRequests)%Z.

(** The five characters of the class of [markup]. *)
Definition isMarkup (c : ascii) : bool :=
  existsb (Ascii.eqb c) (list_ascii_of_string ("<>" ++ String (ascii_of_nat 34) "'&")).

(** The string without its markup characters. *)
Fixpoint dropMarkup (s : string) : string :=
  match s with
  | EmptyString => EmptyString
  | String c s' => if isMarkup c then dropMarkup s' else String c (dropMarkup s')
  end.

(** No character of the string is a markup character. *)
Definition clean (s : string) : Prop :=
  Forall (fun c => isMarkup c = false) (list_ascii_of_string s).

End Gemini.

(* ===================================================================== *)
(** ** Notions used in the statements *)
(* ===================================================================== *)

(** A body that only looks at what its continuation answers. *)
Definition extensional (body : Cont -> Cont) : Prop :=
  forall k1 k2, (forall p s, k1 p s = k2 p s) -> forall p s, body k1 p s = body k2 p s.

(** The continuation that refuses every match. *)
Definition failing : Cont := fun _ _ => None.

Definition inRange (o : Check.Outcome) : Prop :=
  0 <= Check.score o <= 10 /\ Check.maxScore o = 10.

(** Some high-severity pattern matches the response. *)
Definition matchesUnsafe (r : string) : bool :=
  existsb (fun pattern => testFresh pattern r) unsafePatterns.

(** The phrases the hallucination check looks for. *)
Definition misconceptionPhrases : list string :=
  map (fun entry => JS.replace (fst entry) "_" " ") INDONESIAN_LAW_KB.commonMisconceptions.

Definition theftQuery : string := "Apa sanksi pidana untuk pencurian?".
Definition theftResponse : string :=
  "Berdasarkan KUHP Pasal 362, pencurian diancam dengan pidana penjara paling lama lima tahun atau pidana denda paling banyak sembilan ratus rupiah.".

(** A run in which the completeness check throws. *)
Definition failingChecks (userQuery aiResponse : string) : list CheckRun :=
  [ pureCheck (validateTopicRelevance userQuery aiResponse);
    (fun st => let '(o, st') := validateSourceCitations aiResponse st in (Returned o, st'));
    (fun st => (Thrown "TypeError: Cannot read properties of undefined", st));
    pureCheck (checkUnsafeContent aiResponse) ].

(** The pairs that fire on a response, and what the flow block deducts. *)
Definition firedPairs (r : string) : list (string * string) :=
  filter (contradicts r) contradictoryPairs.

Definition flowDeduction (sim : string -> string -> Q) (r : string) : Q :=
  if lacksFlow sim r then 1 else 0.

(** One accumulator follows another: nothing happened, or an issue was
    pushed. *)
Definition grows (a b : Acc) : Prop :=
  b = a \/ (List.length (snd a) < List.length (snd b))%nat.

(** No CRITICAL issue was pushed so far. *)
Definition calm (a : Acc) : Prop := filter isCritical (snd a) = [].

(** The suggestions added for a type of issue, whatever the issues say. *)
Definition generalSuggestions : list string :=
  [ "Include specific references to Indonesian laws with article numbers";
    "Focus strictly on Indonesian legal topics and regulations";
    "Provide more comprehensive coverage of the legal topic" ].

(* ===================================================================== *)
(** ** Properties *)
(* ===================================================================== *)

(** *** The matcher *)

Section Matcher.

Variable ic : bool.

Lemma iterate_ext body k1 k2 :
  extensional body -> (forall p s, k1 p s = k2 p s) ->
  forall n p s, iterate body k1 n p s = iterate body k2 n p s.
Proof.
  intros Hb Hk. induction n as [|n IH]; intros p s; cbn [iterate run]; [apply Hk|].
  rewrite (Hb _ (fun p' s' => if String.length s' <? String.length s
                              then iterate body k2 n p' s' else None)).
  - now rewrite Hk.
  - intros p' s'. destruct (String.length s' <? String.length s); [apply IH | reflexivity].
Qed.

Lemma run_ext r : extensional (run ic r).
Proof.
  induction r as [| c | cls | r1 IH1 r2 IH2 | r1 IH1 r2 IH2 | r1 IH1 |];
    intros k1 k2 Hk p s; cbn [iterate run].
  - apply Hk.
  - destruct s as [|x s]; [reflexivity|]. destruct (litMatches ic c x); [apply Hk | reflexivity].
  - destruct s as [|x s]; [reflexivity|]. destruct (clsMatches ic cls x); [apply Hk | reflexivity].
  - apply IH1. intros p' s'. now apply IH2.
  - now rewrite (IH1 k1 k2 Hk), (IH2 k1 k2 Hk).
  - now apply iterate_ext.
  - now rewrite Hk.
Qed.

Lemma run_failing r : forall p s, run ic r failing p s = None.
Proof.
  induction r as [| c | cls | r1 IH1 r2 IH2 | r1 IH1 r2 IH2 | r1 IH1 |]; intros p s; cbn [iterate run].
  - reflexivity.
  - destruct s as [|x s]; [reflexivity|]. now destruct (litMatches ic c x).
  - destruct s as [|x s]; [reflexivity|]. now destruct (clsMatches ic cls x).
  - rewrite (run_ext r1 _ failing); [apply IH1 | exact IH2].
  - now rewrite IH1, IH2.
  - generalize (String.length s) at 1. intros n. revert p s.
    induction n as [|n IHn]; intros p s; cbn [iterate run]; [reflexivity|].
    rewrite (run_ext r1 _ failing); [now rewrite IH1 |].
    intros p' s'. destruct (String.length s' <? String.length s); [apply IHn | reflexivity].
  - now destruct (xorb _ _).
Qed.

(** Any counter that is at least the length of the input gives the same
    answer. *)
Lemma iterate_fuel r k :
  forall n m p s,
    (String.length s <= n)%nat -> (String.length s <= m)%nat ->
    iterate (run ic r) k n p s = iterate (run ic r) k m p s.
Proof.
  assert (Hstuck : forall n p s, String.length s = 0%nat ->
                     iterate (run ic r) k n p s = k p s).
  { intros [|n] p s H0; cbn [iterate run]; [reflexivity|].
    rewrite (run_ext r _ failing); [now rewrite run_failing|].
    intros p' s'. rewrite H0. reflexivity. }
  induction n as [|n IH]; intros m p s Hn Hm.
  - rewrite !Hstuck by lia. reflexivity.
  - destruct m as [|m]; [rewrite !Hstuck by lia; reflexivity|]. cbn [iterate run].
    rewrite (run_ext r _ (fun p' s' => if String.length s' <? String.length s
                                       then iterate (run ic r) k m p' s' else None));
      [reflexivity|].
    intros p' s'. destruct (String.length s' <? String.length s) eqn:E; [|reflexivity].
    apply Nat.ltb_lt in E. apply IH; lia.
Qed.

(** The greedy star, without the counter: try one non-empty iteration
    followed by the star again, else leave the loop. *)
Lemma run_Many r k p s :
  run ic (Many r) k p s
  = match run ic r (fun p' s' => if String.length s' <? String.length s
                                 then run ic (Many r) k p' s' else None) p s with
    | Some rest => Some rest
    | None => k p s
    end.
Proof.
  cbn [run]. destruct (String.length s) as [|n] eqn:E.
  - cbn [iterate]. rewrite (run_ext r _ failing); [now rewrite run_failing | reflexivity].
  - cbn [iterate]. rewrite E.
    rewrite (run_ext r _ (fun p' s' => if String.length s' <? S n
                                       then iterate (run ic r) k (String.length s') p' s'
                                       else None)); [reflexivity|].
    intros p' s'. destruct (String.length s' <? S n) eqn:E'; [|reflexivity].
    apply Nat.ltb_lt in E'. apply iterate_fuel; lia.
Qed.

End Matcher.

(** *** The primitives on concrete inputs *)

Example split_sentences :
  split sentenceBreak "a.b?!c." = ["a"; "b"; "c"; EmptyString].
Proof. vm_compute. reflexivity. Qed.

Example split_words :
  split blanks " a  b " = [EmptyString; "a"; "b"; EmptyString].
Proof. vm_compute. reflexivity. Qed.

Example split_empty : split sentenceBreak EmptyString = [EmptyString].
Proof. vm_compute. reflexivity. Qed.

Example replace_first_only : JS.replace "a_b_c" "_" " " = "a b_c".
Proof. vm_compute. reflexivity. Qed.

Example matchAll_star :
  matchAll (gi (Many (Lit "a"))) 0 "baac" = [EmptyString; "aa"; EmptyString; EmptyString].
Proof. vm_compute. reflexivity. Qed.

Example test_from_lastIndex :
  test (gi (Str "ab")) 1 "abab" = (true, 4%nat)
  /\ test (gi (Str "ab")) 3 "abab" = (false, 0%nat)
  /\ test (gi (Str "ab")) 5 "abab" = (false, 0%nat).
Proof. repeat split; vm_compute; reflexivity. Qed.

Example word_boundaries :
  testFresh stepsPattern "ikuti Langkah berikut" = true
  /\ testFresh stepsPattern "melangkah" = false
  /\ testFresh stepsPattern "1. a" = true
  /\ testFresh stepsPattern "1.a" = false.
Proof. repeat split; vm_compute; reflexivity. Qed.

(** The citation formats exercised by the test suite. *)
Example recognized_citations :
  map (fun c => map fullCitation
                  (extractCitations ("Berdasarkan " ++ c ++ ", dijelaskan bahwa...")%string
                     freshStore))
      [ "UU No. 11 Tahun 2020"; "Undang-Undang Nomor 8 Tahun 1999"; "KUHP Pasal 338";
        "KUHPerdata Pasal 1320"; "Perppu No. 1/2020"; "UUD 1945 Pasal 28";
        "Putusan MK No. 90/PUU-XXI/2023" ]
  = [ ["UU No. 11 Tahun 2020"]; ["Undang-Undang Nomor 8 Tahun 1999"]; ["KUHP Pasal 338"];
      ["KUHPerdata Pasal 1320"]; ["Perppu No. 1/2020"]; ["UUD 1945 Pasal 28"];
      ["Putusan MK No. 90/PUU-XXI/2023"] ].
Proof. vm_compute. reflexivity. Qed.

(** The two examples of the package's documentation. *)
Example dice_examples :
  StringSimilarity.compareTwoStrings "healed" "sealed" == 8 # 10
  /\ StringSimilarity.compareTwoStrings
       "Olive-green table for sale, in extremely good condition."
       "For sale: table in very good  condition, olive green in colour." == 60 # 99.
Proof. split; vm_compute; reflexivity. Qed.

(** *** The orchestrator on the seven checks *)

Lemma validateResponse_aggregate sim q r st :
  fst (validateResponse sim q r st) = aggregate r (checkOutcomes sim q r st).
Proof.
  unfold validateResponse, orchestrate, theChecks, checkOutcomes, pureCheck.
  cbn [runChecks].
  destruct (validateSourceCitations r st) as [o st'].
  cbn [promiseAll fst]. reflexivity.
Qed.

Lemma validateResponse_store sim q r st :
  snd (validateResponse sim q r st) = snd (validateSourceCitations r st).
Proof.
  unfold validateResponse, orchestrate, theChecks, pureCheck.
  cbn [runChecks].
  destruct (validateSourceCitations r st) as [o st'].
  cbn [promiseAll snd]. reflexivity.
Qed.

Lemma critical_vetoes r outs o i :
  In o outs -> In i (Check.issues o) -> severity i = CRITICAL ->
  isValid (aggregate r outs) = false.
Proof.
  intros Ho Hi Hs. unfold aggregate; cbn [isValid].
  replace (existsb isCritical (flat_map Check.issues outs)) with true.
  - now rewrite andb_false_r.
  - symmetry. apply existsb_exists. exists i. split.
    + apply in_flat_map. now exists o.
    + unfold isCritical. now rewrite Hs.
Qed.

(** C1 -- the validity rule.  For every query, response and state of the
    citation patterns, the result of [validateResponse] has [isValid]
    equal to "confidence >= 70 and no issue of severity CRITICAL"; and when
    one of the seven checks emitted a CRITICAL issue, [isValid] is false
    whatever the other checks scored. *)
Theorem C1_validity_rule :
  forall sim q r st,
    let res := fst (validateResponse sim q r st) in
    isValid res = Qle_bool 70 (confidence res) && negb (existsb isCritical (issues res))
    /\ (forall o i,
          In o (checkOutcomes sim q r st) -> In i (Check.issues o) ->
          severity i = CRITICAL -> isValid res = false).
Proof.
  intros sim q r st res. subst res.
  rewrite validateResponse_aggregate. split.
  - unfold aggregate. cbn [isValid confidence issues]. reflexivity.
  - intros o i. apply critical_vetoes.
Qed.

(** An off-topic exchange: the topic check alone emits a CRITICAL issue. *)
Lemma C1_validity_rule_witness :
  isValid (fst (validateResponse StringSimilarity.compareTwoStrings
                  "Bagaimana cara memasak nasi goreng?"
                  "Untuk memasak nasi goreng, siapkan nasi, telur, dan bumbu-bumbu."
                  freshStore)) = false.
Proof.
  apply (proj2 (C1_validity_rule StringSimilarity.compareTwoStrings
                  "Bagaimana cara memasak nasi goreng?"
                  "Untuk memasak nasi goreng, siapkan nasi, telur, dan bumbu-bumbu."
                  freshStore)
           (validateTopicRelevance
              "Bagaimana cara memasak nasi goreng?"
              "Untuk memasak nasi goreng, siapkan nasi, telur, dan bumbu-bumbu.")
           (mkIssue TOPIC_IRRELEVANT CRITICAL
              "Query appears to be outside Indonesian law topics"
              (Some "Please ask about Indonesian laws, regulations, or legal procedures"))).
  - left. reflexivity.
  - vm_compute. left. reflexivity.
  - reflexivity.
Defined.

(** *** Ranges of the scores *)

Lemma ofNat_nonneg n : 0 <= ofNat n.
Proof.
  unfold ofNat, Qle; cbn. lia.
Qed.

Lemma Math_max_0_range x : x <= 10 -> 0 <= Math_max 0 x <= 10.
Proof.
  intros Hx. unfold Math_max. split.
  - apply Q.le_max_l.
  - apply Q.max_lub; [lra | exact Hx].
Qed.

Lemma Math_min_10_range x : 0 <= x -> 0 <= Math_min 10 x <= 10.
Proof.
  intros Hx. unfold Math_min. split.
  - apply Q.min_glb; [lra | exact Hx].
  - apply Q.le_min_l.
Qed.

Lemma finish_inRange a srcs : fst a <= 10 -> inRange (finish a srcs).
Proof.
  intros Ha. split; [|reflexivity]. cbn. now apply Math_max_0_range.
Qed.

Lemma push_le a i d : 0 <= d -> fst a <= 10 -> fst (push a i d) <= 10.
Proof.
  intros Hd Ha. cbn. lra.
Qed.

(** An invariant of the accumulator survives a [forEach]. *)
Lemma fold_left_invariant {A B} (P : A -> Prop) (f : A -> B -> A) (l : list B) :
  (forall a x, P a -> P (f a x)) -> forall a, P a -> P (fold_left f l a).
Proof.
  intros Hf. induction l as [|x l IH]; intros a Ha; cbn; auto.
Qed.

Create HintDb scores.
#[local] Hint Resolve push_le : scores.
#[local] Hint Extern 1 (0 <= _) => lra : scores.
#[local] Hint Extern 1 (_ <= 10) => lra : scores.

Ltac step_le :=
  intros; cbn beta;
  repeat match goal with
         | |- context [ if ?b then _ else _ ] => destruct b
         | |- context [ match ?m with _ => _ end ] => destruct m
         end;
  auto with scores.

Lemma validateTopicRelevance_inRange q r : inRange (validateTopicRelevance q r).
Proof.
  split; [|reflexivity]. unfold validateTopicRelevance. cbn [Check.score].
  apply Math_max_0_range. apply Q.le_min_l.
Qed.

Lemma validateSourceCitations_inRange r st : inRange (fst (validateSourceCitations r st)).
Proof.
  unfold validateSourceCitations.
  set (found := extractCitations r st).
  set (s0 := Math_min 10 _).
  assert (Hs0 : 0 <= s0 <= 10).
  { apply Math_min_10_range. apply Qmult_le_0_compat; [|lra].
    apply Qmult_le_0_compat; [apply ofNat_nonneg|].
    apply Qinv_le_0_compat, ofNat_nonneg. }
  destruct (validateFormats found st) as [fi st'].
  destruct (List.length found =? 0)%nat; [|destruct (_ <? _)%nat];
    (split; [cbn; lra | reflexivity]).
Qed.

Lemma detectHallucinations_inRange sim r : inRange (detectHallucinations sim r).
Proof.
  unfold detectHallucinations. apply finish_inRange.
  repeat (apply fold_left_invariant with (P := fun a : Acc => fst a <= 10);
          [ intros a x Ha | ]).
  - unfold absoluteStep. step_le.
  - unfold knowledgeStep. destruct x. step_le.
  - unfold misconceptionStep. destruct x. step_le.
  - cbn. lra.
Qed.

Lemma checkLogicalConsistency_inRange sim r : inRange (checkLogicalConsistency sim r).
Proof.
  unfold checkLogicalConsistency. apply finish_inRange.
  assert (H : fst (fold_left (contradictionStep r) contradictoryPairs (10, [])) <= 10).
  { apply fold_left_invariant with (P := fun a : Acc => fst a <= 10).
    - intros a x Ha. unfold contradictionStep. step_le.
    - cbn. lra. }
  revert H. generalize (fold_left (contradictionStep r) contradictoryPairs (10, [])).
  intros a Ha. unfold flowStep. step_le.
Qed.

Lemma validateCompleteness_inRange q r : inRange (validateCompleteness q r).
Proof.
  unfold validateCompleteness. apply finish_inRange.
  assert (H0 : fst ((10, []) : Acc) <= 10) by (cbn; lra).
  revert H0. generalize ((10, []) : Acc). intros a0 H0.
  assert (H1 : fst (proceduralStep q r a0) <= 10) by (unfold proceduralStep; step_le).
  revert H1. generalize (proceduralStep q r a0). intros a1 H1.
  assert (H2 : fst (brevityStep q r a1) <= 10) by (unfold brevityStep; step_le).
  revert H2. generalize (brevityStep q r a1). intros a2 H2.
  unfold definitionStep; step_le.
Qed.

Lemma checkUnsafeContent_inRange r : inRange (checkUnsafeContent r).
Proof.
  unfold checkUnsafeContent. apply finish_inRange.
  repeat (apply fold_left_invariant with (P := fun a : Acc => fst a <= 10);
          [ intros a x Ha | ]).
  - unfold inappropriateStep. step_le.
  - unfold unsafeStep. destruct (testFresh x r); [cbn; lra | exact Ha].
  - cbn. lra.
Qed.

Lemma assessQuality_inRange sim r : inRange (assessQuality sim r).
Proof.
  unfold assessQuality. apply finish_inRange.
  assert (H0 : fst ((10, []) : Acc) <= 10) by (cbn; lra).
  revert H0. generalize ((10, []) : Acc). intros a0 H0.
  assert (H1 : fst (lengthStep r a0) <= 10) by (unfold lengthStep; step_le).
  revert H1. generalize (lengthStep r a0). intros a1 H1.
  assert (H2 : fst (repetitionStep sim r a1) <= 10) by (unfold repetitionStep; step_le).
  revert H2. generalize (repetitionStep sim r a1). intros a2 H2.
  unfold formalityStep; step_le.
Qed.

Lemma checkOutcomes_inRange sim q r st :
  Forall inRange (checkOutcomes sim q r st).
Proof.
  unfold checkOutcomes.
  repeat apply Forall_cons; try apply Forall_nil.
  - apply validateTopicRelevance_inRange.
  - apply validateSourceCitations_inRange.
  - apply detectHallucinations_inRange.
  - apply checkLogicalConsistency_inRange.
  - apply validateCompleteness_inRange.
  - apply checkUnsafeContent_inRange.
  - apply assessQuality_inRange.
Qed.

(** *** Sums over the outcomes *)

Lemma fold_score_shift l a :
  fold_left (fun total check => total + Check.score check) l a == a + totalScore l.
Proof.
  unfold totalScore. revert a.
  induction l as [|o l IH]; intros a; cbn.
  - lra.
  - rewrite IH, (IH (0 + Check.score o)). lra.
Qed.

Lemma fold_max_shift l a :
  fold_left (fun total check => total + Check.maxScore check) l a == a + totalMax l.
Proof.
  unfold totalMax. revert a.
  induction l as [|o l IH]; intros a; cbn.
  - lra.
  - rewrite IH, (IH (0 + Check.maxScore o)). lra.
Qed.

Lemma totalScore_cons o l : totalScore (o :: l) == Check.score o + totalScore l.
Proof.
  unfold totalScore at 1. cbn. rewrite fold_score_shift. lra.
Qed.

Lemma totalMax_cons o l : totalMax (o :: l) == Check.maxScore o + totalMax l.
Proof.
  unfold totalMax at 1. cbn. rewrite fold_max_shift. lra.
Qed.

Lemma totals_inRange l :
  Forall inRange l ->
  totalMax l == 10 * ofNat (List.length l) /\ 0 <= totalScore l <= totalMax l.
Proof.
  induction 1 as [|o l [[Hlo Hhi] Hm] _ [IHm [IHlo IHhi]]].
  - split; [reflexivity | split; apply Qle_refl].
  - rewrite totalScore_cons, totalMax_cons, Hm.
    replace (ofNat (List.length (o :: l))) with (ofNat (S (List.length l))) by reflexivity.
    assert (E : ofNat (S (List.length l)) == 1 + ofNat (List.length l)).
    { unfold ofNat. rewrite Nat2Z.inj_succ, <- Z.add_1_l, inject_Z_plus. reflexivity. }
    rewrite E. lra.
Qed.

(** The confidence of an aggregate of well-ranged outcomes. *)
Lemma aggregate_confidence r l :
  Forall inRange l -> l <> [] ->
  confidence (aggregate r l) == 100 * totalScore l / totalMax l
  /\ 0 <= confidence (aggregate r l) <= 100.
Proof.
  intros Hl Hne.
  destruct (totals_inRange l Hl) as [Hm [Hlo Hhi]].
  assert (Hpos : 0 < totalMax l).
  { rewrite Hm. destruct l as [|o l]; [congruence|].
    assert (0 <= ofNat (List.length l)) by apply ofNat_nonneg.
    replace (ofNat (List.length (o :: l))) with (ofNat (S (List.length l))) by reflexivity.
    assert (E : ofNat (S (List.length l)) == 1 + ofNat (List.length l)).
    { unfold ofNat. rewrite Nat2Z.inj_succ, <- Z.add_1_l, inject_Z_plus. reflexivity. }
    rewrite E. lra. }
  unfold aggregate. cbn [confidence].
  assert (Hb : Qltb 0 (totalMax l) = true).
  { unfold Qltb. apply negb_true_iff. apply not_true_iff_false.
    rewrite Qle_bool_iff. lra. }
  rewrite Hb.
  assert (Hc : totalScore l / totalMax l * 100 == 100 * totalScore l / totalMax l)
    by (field; lra).
  split; [exact Hc|].
  assert (Hq : 0 <= totalScore l / totalMax l <= 1).
  { split.
    - apply Qle_shift_div_l; [exact Hpos | lra].
    - apply Qle_shift_div_r; [exact Hpos | lra]. }
  lra.
Qed.



(** *** Unsafe content *)

Lemma unsafe_fold r l a :
  (existsb (fun pattern => testFresh pattern r) l = true
   \/ (fst a == 0 /\ In unsafeIssue (snd a))) ->
  let a' := fold_left (unsafeStep r) l a in
  fst a' == 0 /\ In unsafeIssue (snd a').
Proof.
  revert a. induction l as [|p l IH]; intros a H; cbn in *.
  - destruct H as [H|H]; [discriminate | exact H].
  - apply IH. unfold unsafeStep.
    destruct (testFresh p r) eqn:Hp; cbn in *.
    + right. split; [reflexivity | apply in_or_app; right; now left].
    + exact H.
Qed.

Lemma inappropriate_fold r l a :
  fst a <= 0 -> In unsafeIssue (snd a) ->
  let a' := fold_left (inappropriateStep r) l a in
  fst a' <= 0 /\ In unsafeIssue (snd a').
Proof.
  revert a. induction l as [|p l IH]; intros a H1 H2; cbn.
  - now split.
  - apply IH; unfold inappropriateStep; destruct (testFresh p r); cbn; auto; try lra.
    apply in_or_app; now left.
Qed.

Lemma In_checkUnsafeContent sim q r st :
  In (checkUnsafeContent r) (checkOutcomes sim q r st).
Proof.
  unfold checkOutcomes. cbn [In]. tauto.
Qed.

(** C3 -- the unsafe-content veto.  When one of the high-severity unsafe
    patterns matches the response, the unsafe-content check scores exactly 0
    (whether or not patterns of the second, lower-severity set match too)
    and emits the CRITICAL UNSAFE_CONTENT issue, and the overall result is
    invalid. *)
Theorem C3_unsafe_content_veto :
  forall sim q r st,
    matchesUnsafe r = true ->
    Check.score (checkUnsafeContent r) == 0
    /\ In unsafeIssue (Check.issues (checkUnsafeContent r))
    /\ type unsafeIssue = UNSAFE_CONTENT /\ severity unsafeIssue = CRITICAL
    /\ isValid (fst (validateResponse sim q r st)) = false.
Proof.
  intros sim q r st H.
  assert (Hfold : let a := fold_left (inappropriateStep r) inappropriatePatterns
                             (fold_left (unsafeStep r) unsafePatterns (10, [])) in
                  fst a <= 0 /\ In unsafeIssue (snd a)).
  { destruct (unsafe_fold r unsafePatterns (10, []) (or_introl H)) as [H0 H1].
    apply inappropriate_fold; [rewrite H0; lra | exact H1]. }
  destruct Hfold as [Hle Hin].
  assert (Hissue : In unsafeIssue (Check.issues (checkUnsafeContent r))) by exact Hin.
  split; [|split; [exact Hissue | split; [reflexivity | split; [reflexivity|]]]].
  - unfold checkUnsafeContent, finish. cbn [Check.score]. unfold Math_max.
    rewrite Q.max_l by exact Hle. reflexivity.
  - rewrite validateResponse_aggregate.
    apply critical_vetoes with (o := checkUnsafeContent r) (i := unsafeIssue).
    + apply In_checkUnsafeContent.
    + exact Hissue.
    + reflexivity.
Qed.

(** A response that matches [/cara.*korupsi/gi] and, in the same text,
    [/pasti.*menang/gi]. *)
Lemma C3_unsafe_content_veto_witness :
  Check.score (checkUnsafeContent "Cara melakukan korupsi: Anda pasti menang") == 0
  /\ In unsafeIssue (Check.issues (checkUnsafeContent "Cara melakukan korupsi: Anda pasti menang"))
  /\ type unsafeIssue = UNSAFE_CONTENT /\ severity unsafeIssue = CRITICAL
  /\ isValid (fst (validateResponse StringSimilarity.compareTwoStrings
                     "Bagaimana cara melakukan korupsi tanpa ketahuan?"
                     "Cara melakukan korupsi: Anda pasti menang" freshStore)) = false.
Proof.
  apply (C3_unsafe_content_veto StringSimilarity.compareTwoStrings
           "Bagaimana cara melakukan korupsi tanpa ketahuan?"
           "Cara melakukan korupsi: Anda pasti menang" freshStore).
  vm_compute. reflexivity.
Defined.

Example unsafe_and_inappropriate :
  map (fun i => (type i, severity i))
      (Check.issues (checkUnsafeContent "Cara melakukan korupsi: Anda pasti menang"))
  = [(UNSAFE_CONTENT, CRITICAL); (UNSAFE_CONTENT, HIGH)].
Proof. vm_compute. reflexivity. Qed.

(** *** Source citations *)

Lemma sources_of_result sim q r st :
  sources (fst (validateResponse sim q r st))
  = unique (Check.sources (fst (validateSourceCitations r st))).
Proof.
  rewrite validateResponse_aggregate.
  unfold aggregate, checkOutcomes. cbn [sources flat_map].
  unfold validateTopicRelevance, detectHallucinations, checkLogicalConsistency,
    validateCompleteness, checkUnsafeContent, assessQuality, finish.
  cbn [Check.sources app]. now rewrite app_nil_r.
Qed.

(** A pattern that matches nowhere yields no match, whatever its
    [lastIndex]. *)
Lemma scanAll_no_match re s :
  forall prev pos skip, search re prev s pos = None -> scanAll re skip prev s = [].
Proof.
  induction s as [|c s IH]; intros prev pos skip H; cbn in H.
  - destruct (matchHere re prev EmptyString) eqn:E; [discriminate|].
    destruct skip; cbn; [now rewrite E | reflexivity].
  - destruct (matchHere re prev (String c s)) eqn:E; [discriminate|].
    destruct skip; cbn; [rewrite E|]; eapply IH; exact H.
Qed.

Lemma extractFrom_no_match r st :
  forall patterns i,
    (forall pattern, In pattern patterns -> exec pattern 0 r = None) ->
    extractFrom patterns i r st = [].
Proof.
  induction patterns as [|p ps IH]; intros i H; cbn; [reflexivity|].
  rewrite IH by (intros p' Hp'; apply H; now right).
  unfold matchAll. rewrite (scanAll_no_match p r None 0%nat).
  - reflexivity.
  - apply (H p). now left.
Qed.

(** When no pattern of the citation grammar matches anywhere in the
    response, the extractor finds nothing in any state. *)
Lemma no_match_no_citation r st :
  (forall pattern, In pattern CITATION_PATTERNS -> exec pattern 0 r = None) ->
  extractCitations r st = [].
Proof.
  apply extractFrom_no_match.
Qed.

(** C4 -- no citation.  When the extractor finds no citation in the
    response (of any length, in any state of the patterns), the source
    citation check scores 0 and emits the CRITICAL MISSING_SOURCE issue, and
    the sources of the final result are empty. *)
Theorem C4_no_citation :
  forall sim q r st,
    extractCitations r st = [] ->
    Check.score (fst (validateSourceCitations r st)) == 0
    /\ In noCitationIssue (Check.issues (fst (validateSourceCitations r st)))
    /\ type noCitationIssue = MISSING_SOURCE /\ severity noCitationIssue = CRITICAL
    /\ sources (fst (validateResponse sim q r st)) = [].
Proof.
  intros sim q r st H.
  rewrite sources_of_result.
  unfold validateSourceCitations. rewrite H.
  cbn [List.length Nat.eqb validateFormats map fst app Check.score Check.issues Check.sources].
  repeat split; try reflexivity. now left.
Qed.

Lemma C4_no_citation_witness :
  Check.score (fst (validateSourceCitations
     "Hukum pidana mengatur tentang kejahatan dan pelanggaran serta sanksinya." freshStore)) == 0
  /\ In noCitationIssue (Check.issues (fst (validateSourceCitations
     "Hukum pidana mengatur tentang kejahatan dan pelanggaran serta sanksinya." freshStore)))
  /\ type noCitationIssue = MISSING_SOURCE /\ severity noCitationIssue = CRITICAL
  /\ sources (fst (validateResponse StringSimilarity.compareTwoStrings
       "Tentang hukum pidana"
       "Hukum pidana mengatur tentang kejahatan dan pelanggaran serta sanksinya."
       freshStore)) = [].
Proof.
  apply (C4_no_citation StringSimilarity.compareTwoStrings "Tentang hukum pidana"
           "Hukum pidana mengatur tentang kejahatan dan pelanggaran serta sanksinya."
           freshStore).
  vm_compute. reflexivity.
Defined.

(** *** Misconception phrases *)

(** C5 -- misconception phrases.  [replace] with a string pattern rewrites
    the first underscore only, so the phrases searched are
    "pidana mati_dihapus", "poligami bebas" and "hukum adat_tidak_berlaku".
    A response that contains "pidana mati dihapus" gets no issue from the
    hallucination check and keeps the score 10, whereas a response that
    contains "poligami bebas" gets the HIGH HALLUCINATION issue and loses 3. *)
Theorem C5_misconception_phrase_missed :
  forall sim,
    misconceptionPhrases
    = ["pidana mati_dihapus"; "poligami bebas"; "hukum adat_tidak_berlaku"]
    /\ JS.includes (JS.toLowerCase "Pidana mati dihapus di Indonesia.") "pidana mati dihapus" = true
    /\ Check.issues (detectHallucinations sim "Pidana mati dihapus di Indonesia.") = []
    /\ Check.score (detectHallucinations sim "Pidana mati dihapus di Indonesia.") == 10
    /\ map (fun i => (type i, severity i))
         (Check.issues (detectHallucinations sim "Poligami bebas di Indonesia."))
       = [(HALLUCINATION, HIGH)]
    /\ Check.score (detectHallucinations sim "Poligami bebas di Indonesia.") == 7.
Proof.
  intros sim. repeat split; vm_compute; reflexivity.
Qed.

(** *** The state of the citation patterns *)

(** C8 -- re-validation of the citations.  From the fresh state, on the
    response "KUHP Pasal 362 dan KUHP Pasal 363": both citations are
    extracted; re-validating the first leaves [lastIndex = 14] on the KUHP
    pattern; the second, although it matches that pattern from index 0, is
    then tested from index 14 and fails, and the LOW MISSING_SOURCE issue
    "Citation format may be incorrect: KUHP Pasal 363" is emitted. *)
Theorem C8_malformed_branch_reached :
  let r := "KUHP Pasal 362 dan KUHP Pasal 363" in
  let o := fst (validateSourceCitations r freshStore) in
  Check.sources o = ["KUHP Pasal 362"; "KUHP Pasal 363"]
  /\ Check.issues o = [malformedIssue (mkSource KUHP "KUHP Pasal 363")]
  /\ severity (malformedIssue (mkSource KUHP "KUHP Pasal 363")) = LOW
  /\ type (malformedIssue (mkSource KUHP "KUHP Pasal 363")) = MISSING_SOURCE
  /\ isValidCitationFormat "KUHP Pasal 363" freshStore = (true, setLastIndex freshStore 4 14)
  /\ isValidCitationFormat "KUHP Pasal 363" (setLastIndex freshStore 4 14) = (false, freshStore).
Proof.
  repeat split; vm_compute; reflexivity.
Qed.

(** C6 -- repeated calls.  Two consecutive calls with the same query and
    response, the first one from the fresh state: the first call finds the
    source "KUHP Pasal 362" and leaves [lastIndex = 14] on the KUHP pattern;
    the second call scans from index 14, misses the citation (it starts at
    index 12), returns no source and is invalid.  With the reference
    similarity the first call is valid with confidence 640/7. *)
Theorem C6_second_call_differs :
  forall sim,
    let first := validateResponse sim theftQuery theftResponse freshStore in
    let second := validateResponse sim theftQuery theftResponse (snd first) in
    sources (fst first) = ["KUHP Pasal 362"]
    /\ snd first = setLastIndex freshStore 4 14
    /\ sources (fst second) = []
    /\ isValid (fst second) = false
    /\ isValid (fst (validateResponse StringSimilarity.compareTwoStrings
                       theftQuery theftResponse freshStore)) = true
    /\ confidence (fst (validateResponse StringSimilarity.compareTwoStrings
                          theftQuery theftResponse freshStore)) == 640 # 7
    /\ confidence (fst (validateResponse StringSimilarity.compareTwoStrings
                          theftQuery theftResponse (setLastIndex freshStore 4 14))) == 540 # 7.
Proof.
  intros sim first second.
  assert (Hst : snd first = setLastIndex freshStore 4 14).
  { unfold first. rewrite validateResponse_store. vm_compute. reflexivity. }
  split; [|split; [exact Hst|split; [|split]]].
  - unfold first. rewrite sources_of_result. vm_compute. reflexivity.
  - unfold second. rewrite Hst, sources_of_result. vm_compute. reflexivity.
  - unfold second. rewrite Hst, validateResponse_aggregate.
    apply critical_vetoes
      with (o := fst (validateSourceCitations theftResponse (setLastIndex freshStore 4 14)))
           (i := noCitationIssue).
    + unfold checkOutcomes. cbn [In]. tauto.
    + vm_compute. now left.
    + reflexivity.
  - repeat split; vm_compute; reflexivity.
Qed.

(** *** The empty response *)

Lemma empty_response_no_citation st : extractCitations EmptyString st = [].
Proof.
  apply no_match_no_citation. intros pattern H.
  unfold CITATION_PATTERNS in H. cbn [In] in H.
  repeat (destruct H as [<-|H]; [vm_compute; reflexivity|]).
  contradiction.
Qed.

Lemma empty_response_citation_score st :
  Check.score (fst (validateSourceCitations EmptyString st)) == 0.
Proof.
  unfold validateSourceCitations. rewrite empty_response_no_citation.
  cbn [List.length Nat.eqb validateFormats Check.score fst]. reflexivity.
Qed.

Lemma empty_response_issue st :
  In noCitationIssue (Check.issues (fst (validateSourceCitations EmptyString st))).
Proof.
  unfold validateSourceCitations. rewrite empty_response_no_citation.
  cbn [List.length Nat.eqb validateFormats Check.issues fst app]. now left.
Qed.

(** C7 -- the empty response.  For every query (and state of the
    patterns), the result for the empty response is invalid, but its
    confidence is not 0: the hallucination, consistency and safety checks
    each score 10 and the quality check 6 on the empty text, so the
    confidence is at least 100 * 36 / 70; for the query "Test query" it is
    460/7 (about 65.7). *)
Theorem C7_empty_response :
  forall sim q st,
    let res := fst (validateResponse sim q EmptyString st) in
    isValid res = false
    /\ 360 # 7 <= confidence res
    /\ ~ confidence res == 0
    /\ confidence (fst (validateResponse sim "Test query" EmptyString freshStore)) == 460 # 7.
Proof.
  intros sim q st res.
  assert (Hvalid : isValid res = false).
  { unfold res. rewrite validateResponse_aggregate.
    apply critical_vetoes
      with (o := fst (validateSourceCitations EmptyString st)) (i := noCitationIssue).
    - unfold checkOutcomes. cbn [In]. tauto.
    - apply empty_response_issue.
    - reflexivity. }
  assert (Hconf : 360 # 7 <= confidence res).
  { unfold res. rewrite validateResponse_aggregate.
    assert (Hl : Forall inRange (checkOutcomes sim q EmptyString st))
      by apply checkOutcomes_inRange.
    destruct (aggregate_confidence EmptyString _ Hl ltac:(discriminate)) as [Hc _].
    destruct (totals_inRange _ Hl) as [Hm _].
    rewrite Hc, Hm. unfold checkOutcomes.
    repeat rewrite totalScore_cons.
    destruct (validateTopicRelevance_inRange q EmptyString) as [[H1 _] _].
    destruct (validateCompleteness_inRange q EmptyString) as [[H5 _] _].
    rewrite empty_response_citation_score.
    assert (E3 : Check.score (detectHallucinations sim EmptyString) == 10)
      by (vm_compute; reflexivity).
    assert (E4 : Check.score (checkLogicalConsistency sim EmptyString) == 10)
      by (vm_compute; reflexivity).
    assert (E6 : Check.score (checkUnsafeContent EmptyString) == 10)
      by (vm_compute; reflexivity).
    assert (E7 : Check.score (assessQuality sim EmptyString) == 6)
      by (vm_compute; reflexivity).
    rewrite E3, E4, E6, E7.
    assert (E0 : totalScore [] == 0) by reflexivity.
    rewrite E0.
    change (ofNat (List.length _)) with (7 # 1).
    apply Qle_shift_div_l; [lra|]. lra. }
  split; [exact Hvalid | split; [exact Hconf | split]].
  - intros H0. rewrite H0 in Hconf. revert Hconf. unfold Qle; cbn. lia.
  - rewrite validateResponse_aggregate. vm_compute. reflexivity.
Qed.

(** *** Failures inside a run *)

Lemma promiseAll_thrown cs e :
  In (Thrown e) cs -> exists e', promiseAll cs = Thrown e'.
Proof.
  induction cs as [|c cs IH]; intros H; [contradiction|].
  destruct c as [o|e0]; cbn.
  - destruct H as [H|H]; [discriminate|].
    destruct (IH H) as [e' ->]. now exists e'.
  - now exists e0.
Qed.

(** C9 -- fail closed.  For any list of checks, any response and any
    state: when one of the checks throws during the run, the result of the
    orchestrator is the fixed fallback, which is invalid, has confidence 0,
    exactly one issue, of severity CRITICAL and reporting a validation
    system error, no source, and the input response as validated text. *)
Theorem C9_fail_closed :
  forall checks aiResponse st,
    (exists e, In (Thrown e) (fst (runChecks checks st))) ->
    let res := fst (orchestrate checks aiResponse st) in
    res = fallback aiResponse
    /\ isValid res = false
    /\ confidence res = 0
    /\ (exists i, issues res = [i] /\ severity i = CRITICAL
                  /\ message i = "Validation system error occurred")
    /\ sources res = []
    /\ validatedText res = aiResponse.
Proof.
  intros checks aiResponse st [e He] res.
  assert (Hres : res = fallback aiResponse).
  { unfold res, orchestrate.
    destruct (runChecks checks st) as [cs st']. cbn [fst] in He.
    destruct (promiseAll_thrown cs e He) as [e' ->]. reflexivity. }
  rewrite Hres. repeat split.
  eexists. repeat split.
Qed.

Lemma C9_fail_closed_witness :
  fst (orchestrate (failingChecks "Apa itu hukum?" "KUHP Pasal 362") "KUHP Pasal 362" freshStore)
    = fallback "KUHP Pasal 362"
  /\ isValid (fst (orchestrate (failingChecks "Apa itu hukum?" "KUHP Pasal 362")
                     "KUHP Pasal 362" freshStore)) = false
  /\ confidence (fst (orchestrate (failingChecks "Apa itu hukum?" "KUHP Pasal 362")
                        "KUHP Pasal 362" freshStore)) = 0
  /\ (exists i, issues (fst (orchestrate (failingChecks "Apa itu hukum?" "KUHP Pasal 362")
                               "KUHP Pasal 362" freshStore)) = [i]
                /\ severity i = CRITICAL
                /\ message i = "Validation system error occurred")
  /\ sources (fst (orchestrate (failingChecks "Apa itu hukum?" "KUHP Pasal 362")
                     "KUHP Pasal 362" freshStore)) = []
  /\ validatedText (fst (orchestrate (failingChecks "Apa itu hukum?" "KUHP Pasal 362")
                           "KUHP Pasal 362" freshStore)) = "KUHP Pasal 362".
Proof.
  apply (C9_fail_closed (failingChecks "Apa itu hukum?" "KUHP Pasal 362")
           "KUHP Pasal 362" freshStore).
  exists "TypeError: Cannot read properties of undefined".
  vm_compute. right. right. left. reflexivity.
Defined.

(** The seven checks of the validator never throw: [validateResponse]
    always takes the normal path. *)
Lemma theChecks_return sim q r st :
  promiseAll (fst (runChecks (theChecks sim q r) st))
  = Returned (checkOutcomes sim q r st).
Proof.
  unfold theChecks, checkOutcomes, pureCheck. cbn [runChecks].
  destruct (validateSourceCitations r st) as [o st'].
  cbn [promiseAll fst]. reflexivity.
Qed.

(** *** Contradiction pairs *)

Lemma contradiction_fold r l a :
  let a' := fold_left (contradictionStep r) l a in
  fst a' == fst a - 3 * ofNat (List.length (filter (contradicts r) l))
  /\ snd a' = snd a ++ map (fun pair => contradictionIssue (fst pair) (snd pair))
                         (filter (contradicts r) l).
Proof.
  revert a. induction l as [|p l IH]; intros a; cbn.
  - split; [| now rewrite app_nil_r].
    change (ofNat 0) with (0 # 1). lra.
  - destruct (IH (contradictionStep r a p)) as [IH1 IH2].
    unfold contradictionStep in *. destruct (contradicts r p); cbn [List.length map].
    + split.
      * rewrite IH1. cbn [fst push].
        assert (E : ofNat (S (List.length (filter (contradicts r) l)))
                    == 1 + ofNat (List.length (filter (contradicts r) l))).
        { unfold ofNat. rewrite Nat2Z.inj_succ, <- Z.add_1_l, inject_Z_plus. reflexivity. }
        rewrite E. lra.
      * rewrite IH2. cbn [snd push]. now rewrite <- app_assoc.
    + split; assumption.
Qed.

Lemma checkLogicalConsistency_score sim r :
  Check.score (checkLogicalConsistency sim r)
  == Qmax 0 (10 - 3 * ofNat (List.length (firedPairs r)) - flowDeduction sim r).
Proof.
  unfold checkLogicalConsistency, finish, flowStep, flowDeduction, firedPairs.
  cbn [Check.score]. unfold Math_max.
  destruct (contradiction_fold r contradictoryPairs (10, [])) as [H1 _].
  cbn [fst] in H1.
  destruct (lacksFlow sim r); cbn [fst push]; rewrite H1;
    apply Q.max_compat; try reflexivity; lra.
Qed.

Lemma checkLogicalConsistency_issues sim r pair :
  In pair (firedPairs r) ->
  In (contradictionIssue (fst pair) (snd pair)) (Check.issues (checkLogicalConsistency sim r)).
Proof.
  intros H.
  unfold checkLogicalConsistency, finish, flowStep. cbn [Check.issues].
  destruct (contradiction_fold r contradictoryPairs (10, [])) as [_ H2].
  cbn [snd] in H2.
  assert (Hin : In (contradictionIssue (fst pair) (snd pair))
                   (snd (fold_left (contradictionStep r) contradictoryPairs (10, [])))).
  { rewrite H2. cbn [app].
    apply (in_map (fun pair => contradictionIssue (fst pair) (snd pair))). exact H. }
  destruct (lacksFlow sim r); [|exact Hin].
  cbn [snd push]. apply in_or_app. now left.
Qed.

Lemma contradicts_near r pos neg i1 i2 :
  JS.indexOf (JS.toLowerCase r) pos = Some i1 ->
  JS.indexOf (JS.toLowerCase r) neg = Some i2 ->
  ((i1 - i2) + (i2 - i1) < 50)%nat ->
  contradicts r (pos, neg) = true.
Proof.
  intros H1 H2 Hd. unfold contradicts, findWordDistance, JS.includes.
  rewrite H1, H2. cbn [andb]. now apply Nat.ltb_lt.
Qed.

(** Where "tidak wajib" stands, "wajib" stands six characters further. *)
Lemma substring_tidak_wajib s :
  forall n, substring n 11 s = "tidak wajib" -> substring (n + 6) 5 s = "wajib".
Proof.
  induction s as [|c s IH]; intros n H.
  - destruct n; discriminate.
  - destruct n as [|n].
    + do 10 (destruct s as [|? s]; [discriminate|]).
      cbn in H. injection H as -> -> -> -> -> -> -> -> -> -> -> _.
      clear IH. destruct s; reflexivity.
    + cbn in H. cbn. apply IH. exact H.
Qed.

Lemma first_wajib_near t i2 :
  JS.indexOf t "tidak wajib" = Some i2 ->
  (forall j, (j < i2)%nat -> substring j 5 t <> "wajib") ->
  exists i1, JS.indexOf t "wajib" = Some i1 /\ (i2 <= i1 <= i2 + 6)%nat.
Proof.
  unfold JS.indexOf. intros H2 Hno.
  assert (Hw : substring (i2 + 6) 5 t = "wajib").
  { apply substring_tidak_wajib. exact (index_correct1 _ _ _ _ H2). }
  destruct (index 0 "wajib" t) as [i1|] eqn:H1.
  - exists i1. split; [reflexivity|]. split.
    + destruct (Nat.le_gt_cases i2 i1) as [Hle|Hlt]; [exact Hle|].
      exfalso. apply (Hno i1 Hlt). exact (index_correct1 _ _ _ _ H1).
    + destruct (Nat.le_gt_cases i1 (i2 + 6)) as [Hle|Hlt]; [exact Hle|].
      exfalso. apply (index_correct2 _ _ _ _ H1 (i2 + 6)%nat); [lia | exact Hlt | exact Hw].
  - exfalso. apply (index_correct3 0 (i2 + 6) "wajib" t H1);
      [discriminate | lia | exact Hw].
Qed.

Lemma ofNat_length_pos {A} (l : list A) x : In x l -> 1 <= ofNat (List.length l).
Proof.
  destruct l as [|y l]; [contradiction|]. intros _.
  unfold ofNat, Qle. cbn [Qnum Qden inject_Z List.length]. lia.
Qed.

Lemma fired_pair_costs sim r pair :
  In pair (firedPairs r) ->
  In (contradictionIssue (fst pair) (snd pair)) (Check.issues (checkLogicalConsistency sim r))
  /\ Check.score (checkLogicalConsistency sim r) <= 7.
Proof.
  intros H. split; [now apply checkLogicalConsistency_issues|].
  rewrite checkLogicalConsistency_score.
  pose proof (ofNat_length_pos _ _ H) as Hk.
  assert (Hf : 0 <= flowDeduction sim r)
    by (unfold flowDeduction; destruct (lacksFlow sim r); lra).
  apply Q.max_lub; lra.
Qed.

(** The first pair of the table: "diperbolehkan" does not contain
    "dilarang". *)
Lemma C10_pair_without_containment :
  In ("dilarang", "diperbolehkan") contradictoryPairs
  /\ JS.includes "diperbolehkan" "dilarang" = false.
Proof.
  split; [now left | vm_compute; reflexivity].
Qed.

(** C10, amended -- contradiction pairs.  In the last four of the five
    contradiction pairs (all but "dilarang" / "diperbolehkan") the negative
    member contains the positive one.  For every pair of the table and
    every response whose lower-cased text has the first occurrence of the
    positive word less than 50 characters away from the first occurrence of
    the negative phrase, the logical-consistency check emits the HIGH
    INCONSISTENCY issue of that pair and deducts 3 for each pair that fires
    (so the score is at most 7).  In particular this happens for every
    response that contains "tidak wajib" with no occurrence of "wajib"
    before it. *)
Theorem C10_contradiction_by_containment :
  (forall pos neg, In (pos, neg) (tl contradictoryPairs) -> JS.includes neg pos = true)
  /\ (forall sim r pos neg i1 i2,
        In (pos, neg) contradictoryPairs ->
        JS.indexOf (JS.toLowerCase r) pos = Some i1 ->
        JS.indexOf (JS.toLowerCase r) neg = Some i2 ->
        ((i1 - i2) + (i2 - i1) < 50)%nat ->
        In (contradictionIssue pos neg) (Check.issues (checkLogicalConsistency sim r))
        /\ type (contradictionIssue pos neg) = INCONSISTENCY
        /\ severity (contradictionIssue pos neg) = HIGH
        /\ Check.score (checkLogicalConsistency sim r)
           == Qmax 0 (10 - 3 * ofNat (List.length (firedPairs r)) - flowDeduction sim r)
        /\ In (pos, neg) (firedPairs r)
        /\ Check.score (checkLogicalConsistency sim r) <= 7)
  /\ (forall sim r i2,
        JS.indexOf (JS.toLowerCase r) "tidak wajib" = Some i2 ->
        (forall j, (j < i2)%nat -> substring j 5 (JS.toLowerCase r) <> "wajib") ->
        In (contradictionIssue "wajib" "tidak wajib")
           (Check.issues (checkLogicalConsistency sim r))
        /\ Check.score (checkLogicalConsistency sim r) <= 7).
Proof.
  split; [|split].
  - intros pos neg H. cbn [tl contradictoryPairs In] in H.
    repeat (destruct H as [[= <- <-]|H]; [vm_compute; reflexivity|]).
    contradiction.
  - intros sim r pos neg i1 i2 Hin H1 H2 Hd.
    assert (Hf : In (pos, neg) (firedPairs r)).
    { apply filter_In. split; [exact Hin|]. now apply contradicts_near with i1 i2. }
    destruct (fired_pair_costs sim r (pos, neg) Hf) as [Hi Hs].
    repeat split; try assumption. apply checkLogicalConsistency_score.
  - intros sim r i2 H2 Hno.
    destruct (first_wajib_near _ _ H2 Hno) as [i1 [H1 [Hlo Hhi]]].
    apply (fired_pair_costs sim r ("wajib", "tidak wajib")).
    apply filter_In. split.
    + cbn. tauto.
    + apply contradicts_near with i1 i2; [exact H1 | exact H2 | lia].
Qed.

(** A response that states no contradiction at all. *)
Lemma C10_contradiction_by_containment_witness :
  In (contradictionIssue "wajib" "tidak wajib")
     (Check.issues (checkLogicalConsistency StringSimilarity.compareTwoStrings
                      "Mediasi tidak wajib dilakukan."))
  /\ Check.score (checkLogicalConsistency StringSimilarity.compareTwoStrings
                    "Mediasi tidak wajib dilakukan.") <= 7.
Proof.
  apply (proj2 (proj2 C10_contradiction_by_containment)
           StringSimilarity.compareTwoStrings "Mediasi tidak wajib dilakukan." 8%nat).
  - vm_compute. reflexivity.
  - intros j Hj.
    do 8 (destruct j as [|j]; [vm_compute; discriminate|]).
    lia.
Defined.

(* ===================================================================== *)
(** ** Further properties of the validator *)
(* ===================================================================== *)

(** *** Sources *)

Lemma existsb_eqb_In x (l : list string) : existsb (String.eqb x) l = true <-> In x l.
Proof.
  rewrite existsb_exists. split.
  - intros [y [Hy He]]. apply String.eqb_eq in He. now subst.
  - intros H. exists x. split; [exact H | apply String.eqb_refl].
Qed.

Lemma uniqueFrom_In seen xs x :
  In x (uniqueFrom seen xs) <-> In x xs /\ ~ In x seen.
Proof.
  revert seen. induction xs as [|y xs IH]; intros seen; cbn.
  - tauto.
  - destruct (existsb (String.eqb y) seen) eqn:E.
    + apply existsb_eqb_In in E. rewrite IH. split.
      * intros [H1 H2]. tauto.
      * intros [[->|H1] H2]; [contradiction | tauto].
    + assert (Hy : ~ In y seen) by (rewrite <- existsb_eqb_In, E; discriminate).
      cbn. rewrite IH. cbn. split.
      * intros [->|[H1 H2]]; [tauto|]. split; [tauto|]. intros H. apply H2. now right.
      * intros [[->|H1] H2]; [now left|].
        destruct (string_dec y x) as [->|Hne]; [now left|].
        right. split; [exact H1|]. intros [H|H]; [contradiction | contradiction].
Qed.

Lemma uniqueFrom_NoDup seen xs : NoDup (uniqueFrom seen xs).
Proof.
  revert seen. induction xs as [|y xs IH]; intros seen; cbn.
  - constructor.
  - destruct (existsb (String.eqb y) seen); [apply IH|].
    constructor; [|apply IH].
    rewrite uniqueFrom_In. cbn. tauto.
Qed.

Lemma unique_In xs x : In x (unique xs) <-> In x xs.
Proof.
  unfold unique. rewrite uniqueFrom_In. cbn. tauto.
Qed.

Lemma citation_sources r st :
  Check.sources (fst (validateSourceCitations r st))
  = map fullCitation (extractCitations r st).
Proof.
  unfold validateSourceCitations.
  destruct (validateFormats (extractCitations r st) st) as [fi st'].
  destruct (List.length (extractCitations r st) =? 0)%nat; [|destruct (_ <? _)%nat];
    reflexivity.
Qed.

Lemma result_sources_In sim q r st s :
  In s (sources (fst (validateResponse sim q r st)))
  <-> In s (map fullCitation (extractCitations r st)).
Proof.
  rewrite sources_of_result, citation_sources. apply unique_In.
Qed.

(** X1 -- the sources of a result.  For every query, response and state
    of the patterns, the sources of the result hold no string twice, and a
    string is a source exactly when the extractor found it as a citation of
    the response. *)
Theorem sources_unique_and_complete :
  forall sim q r st,
    NoDup (sources (fst (validateResponse sim q r st)))
    /\ (forall s, In s (sources (fst (validateResponse sim q r st)))
                  <-> In s (map fullCitation (extractCitations r st))).
Proof.
  intros sim q r st. split.
  - rewrite sources_of_result. apply uniqueFrom_NoDup.
  - intros s. apply result_sources_In.
Qed.

(** *** Citations are pieces of the response *)

Lemma substring_prefix_of s : forall len, exists post, s = (substring 0 len s ++ post)%string.
Proof.
  induction s as [|c s IH]; intros [|len]; cbn.
  - now exists EmptyString.
  - now exists EmptyString.
  - now exists (String c s).
  - destruct (IH len) as [post Hpost]. exists post. now rewrite <- Hpost.
Qed.

Lemma append_assoc (a b c : string) : ((a ++ b) ++ c = a ++ (b ++ c))%string.
Proof.
  induction a as [|x a IH]; cbn; [reflexivity | now rewrite IH].
Qed.

Lemma scanAll_infix re s :
  forall skip prev t,
    In t (scanAll re skip prev s) -> exists pre post, s = (pre ++ t ++ post)%string.
Proof.
  induction s as [|c s IH]; intros skip prev t H.
  - destruct skip; cbn in H; [|contradiction].
    destruct (matchHere re prev EmptyString) as [len|]; [|contradiction].
    destruct H as [<-|[]]. exists EmptyString, EmptyString. now destruct len.
  - assert (Htail : forall skip' t', In t' (scanAll re skip' (Some c) s) ->
                      exists pre post, String c s = (pre ++ t' ++ post)%string).
    { intros skip' t' H'. destruct (IH _ _ _ H') as [pre [post E]].
      exists (String c pre), post. cbn. now rewrite <- E. }
    destruct skip as [|n]; cbn in H; [|now apply Htail with n].
    destruct (matchHere re prev (String c s)) as [len|]; [|now apply Htail with 0%nat].
    destruct H as [<-|H]; [|now apply Htail with (len - 1)%nat].
    destruct (substring_prefix_of (String c s) len) as [post E].
    exists EmptyString, post. exact E.
Qed.

Lemma index_empty s : index 0 EmptyString s = Some 0%nat.
Proof.
  destruct s; reflexivity.
Qed.

Lemma substring_middle pre t post :
  substring (String.length pre) (String.length t) (pre ++ t ++ post) = t.
Proof.
  induction pre as [|c pre IH]; cbn.
  - induction t as [|x t IHt]; cbn.
    + now destruct post.
    + now rewrite IHt.
  - exact IH.
Qed.

Lemma includes_infix pre t post : JS.includes (pre ++ t ++ post) t = true.
Proof.
  unfold JS.includes, JS.indexOf.
  destruct t as [|x t]; [now rewrite index_empty|].
  destruct (index 0 (String x t) (pre ++ String x t ++ post)) eqn:E; [reflexivity|].
  exfalso.
  apply (index_correct3 0 (String.length pre) _ _ E); [discriminate | lia |].
  apply substring_middle.
Qed.

Lemma extractFrom_infix r st :
  forall patterns i c,
    In c (extractFrom patterns i r st) -> JS.includes r (fullCitation c) = true.
Proof.
  induction patterns as [|p ps IH]; intros i c H; cbn in H; [contradiction|].
  apply in_app_or in H. destruct H as [H|H]; [|now apply IH with (S i)].
  apply in_map_iff in H. destruct H as [t [<- Ht]]. cbn.
  destruct (scanAll_infix _ _ _ _ _ Ht) as [pre [post E]].
  rewrite E at 1. apply includes_infix.
Qed.

(** X2 -- verbatim sources.  Every source of a result occurs, character
    for character, in the response that was validated. *)
Theorem sources_are_verbatim :
  forall sim q r st,
    Forall (fun s => JS.includes r s = true) (sources (fst (validateResponse sim q r st))).
Proof.
  intros sim q r st. apply Forall_forall. intros s Hs.
  apply result_sources_In in Hs.
  apply in_map_iff in Hs. destruct Hs as [c [<- Hc]].
  unfold extractCitations in Hc. eapply extractFrom_infix. exact Hc.
Qed.

(** *** What a valid result guarantees *)

Lemma valid_no_critical r outs :
  isValid (aggregate r outs) = true ->
  forall o i, In o outs -> In i (Check.issues o) -> severity i <> CRITICAL.
Proof.
  intros Hv o i Ho Hi Hs.
  rewrite (critical_vetoes r outs o i Ho Hi Hs) in Hv. discriminate.
Qed.

Lemma valid_confidence r outs :
  isValid (aggregate r outs) = true -> 70 <= confidence (aggregate r outs).
Proof.
  unfold aggregate. cbn [isValid confidence]. intros H.
  apply andb_true_iff in H. destruct H as [H _].
  now apply Qle_bool_iff in H.
Qed.

Lemma Qltb_false a b : Qltb a b = false -> b <= a.
Proof.
  unfold Qltb. intros H. apply negb_false_iff in H. now apply Qle_bool_iff.
Qed.

Lemma Qltb_true a b : Qltb a b = true -> a < b.
Proof.
  unfold Qltb. intros H. apply negb_true_iff in H.
  apply Qnot_le_lt. intros Hle. apply Qle_bool_iff in Hle. congruence.
Qed.

Lemma off_topic_is_critical q r :
  Qltb (Check.score (validateTopicRelevance q r)) 3 = true ->
  exists i, Check.issues (validateTopicRelevance q r) = [i]
            /\ severity i = CRITICAL /\ type i = TOPIC_IRRELEVANT.
Proof.
  unfold validateTopicRelevance. cbn [Check.score Check.issues]. intros ->.
  eexists. split; [reflexivity|]. split; reflexivity.
Qed.

Lemma unsafe_issue_present r :
  matchesUnsafe r = true -> In unsafeIssue (Check.issues (checkUnsafeContent r)).
Proof.
  intros H.
  destruct (unsafe_fold r unsafePatterns (10, []) (or_introl H)) as [H0 H1].
  apply (inappropriate_fold r inappropriatePatterns); [rewrite H0; lra | exact H1].
Qed.

Lemma unique_nonempty xs : xs <> [] -> unique xs <> [].
Proof.
  destruct xs as [|x xs]; [congruence|]. intros _. unfold unique. cbn. discriminate.
Qed.

(** X3 -- what validity guarantees.  When [validateResponse] declares a
    response valid, its confidence is at least 70, at least one citation was
    found (the sources are not empty), the topic score is at least 3, and
    no high-severity unsafe pattern matches the response. *)
Theorem valid_result_guarantees :
  forall sim q r st,
    isValid (fst (validateResponse sim q r st)) = true ->
    70 <= confidence (fst (validateResponse sim q r st))
    /\ sources (fst (validateResponse sim q r st)) <> []
    /\ 3 <= Check.score (validateTopicRelevance q r)
    /\ matchesUnsafe r = false.
Proof.
  intros sim q r st Hv.
  pose proof Hv as Hv'. rewrite validateResponse_aggregate in Hv'.
  pose proof (valid_no_critical _ _ Hv') as Hnc.
  split; [|split; [|split]].
  - rewrite validateResponse_aggregate. now apply valid_confidence.
  - rewrite sources_of_result, citation_sources.
    apply unique_nonempty. intros Hnil. apply map_eq_nil in Hnil.
    apply (Hnc (fst (validateSourceCitations r st)) noCitationIssue).
    + unfold checkOutcomes. cbn [In]. tauto.
    + unfold validateSourceCitations. rewrite Hnil.
      cbn [List.length Nat.eqb validateFormats fst Check.issues app]. now left.
    + reflexivity.
  - apply Qltb_false.
    destruct (Qltb (Check.score (validateTopicRelevance q r)) 3) eqn:E; [|reflexivity].
    exfalso. destruct (off_topic_is_critical q r E) as [i [Hi [Hs _]]].
    apply (Hnc (validateTopicRelevance q r) i).
    + unfold checkOutcomes. cbn [In]. tauto.
    + rewrite Hi. now left.
    + exact Hs.
  - destruct (matchesUnsafe r) eqn:E; [|reflexivity].
    exfalso. apply (Hnc (checkUnsafeContent r) unsafeIssue).
    + unfold checkOutcomes. cbn [In]. tauto.
    + now apply unsafe_issue_present.
    + reflexivity.
Qed.

Lemma valid_result_guarantees_witness :
  70 <= confidence (fst (validateResponse StringSimilarity.compareTwoStrings
                           theftQuery theftResponse freshStore))
  /\ sources (fst (validateResponse StringSimilarity.compareTwoStrings
                     theftQuery theftResponse freshStore)) <> []
  /\ 3 <= Check.score (validateTopicRelevance theftQuery theftResponse)
  /\ matchesUnsafe theftResponse = false.
Proof.
  apply (valid_result_guarantees StringSimilarity.compareTwoStrings
           theftQuery theftResponse freshStore).
  vm_compute. reflexivity.
Defined.

(** *** A result without issues *)

Lemma grows_refl a : grows a a.
Proof. now left. Qed.

Lemma grows_trans a b c : grows a b -> grows b c -> grows a c.
Proof.
  intros [->|H1] [->|H2]; unfold grows; auto. right. lia.
Qed.

Lemma grows_push a i d : grows a (push a i d).
Proof.
  right. cbn. rewrite length_app. cbn. lia.
Qed.

Lemma grows_fold {B} (f : Acc -> B -> Acc) (l : list B) :
  (forall a x, grows a (f a x)) -> forall a, grows a (fold_left f l a).
Proof.
  intros Hf. induction l as [|x l IH]; intros a; cbn; [apply grows_refl|].
  eapply grows_trans; [apply Hf | apply IH].
Qed.

Lemma finish_quiet a srcs :
  grows (10, []) a -> Check.issues (finish a srcs) = [] ->
  Check.score (finish a srcs) == 10.
Proof.
  intros [->|H] Hi; [reflexivity|].
  cbn in Hi. rewrite Hi in H. cbn in H. lia.
Qed.

Ltac step_grows :=
  intros; cbn beta;
  repeat match goal with
         | |- context [ if ?b then _ else _ ] => destruct b
         | |- context [ match ?m with _ => _ end ] => destruct m
         end;
  auto using grows_refl, grows_push.

Lemma detectHallucinations_quiet sim r :
  Check.issues (detectHallucinations sim r) = [] ->
  Check.score (detectHallucinations sim r) == 10.
Proof.
  unfold detectHallucinations. apply finish_quiet.
  eapply grows_trans; [|apply grows_fold; intros a x; unfold absoluteStep; step_grows].
  eapply grows_trans;
    [|apply grows_fold; intros a x; unfold knowledgeStep; destruct x; step_grows].
  apply grows_fold. intros a x. unfold misconceptionStep. destruct x. step_grows.
Qed.

Lemma checkLogicalConsistency_quiet sim r :
  Check.issues (checkLogicalConsistency sim r) = [] ->
  Check.score (checkLogicalConsistency sim r) == 10.
Proof.
  unfold checkLogicalConsistency. apply finish_quiet.
  eapply grows_trans; [|unfold flowStep; step_grows].
  apply grows_fold. intros a x. unfold contradictionStep. step_grows.
Qed.

Lemma validateCompleteness_quiet q r :
  Check.issues (validateCompleteness q r) = [] ->
  Check.score (validateCompleteness q r) == 10.
Proof.
  unfold validateCompleteness. apply finish_quiet.
  eapply grows_trans; [|unfold definitionStep; step_grows].
  eapply grows_trans; [|unfold brevityStep; step_grows].
  unfold proceduralStep. step_grows.
Qed.

Lemma unsafeStep_grows r a p : grows a (unsafeStep r a p).
Proof.
  unfold unsafeStep. destruct (testFresh p r); [|apply grows_refl].
  right. cbn. rewrite length_app. cbn. lia.
Qed.

Lemma checkUnsafeContent_quiet r :
  Check.issues (checkUnsafeContent r) = [] ->
  Check.score (checkUnsafeContent r) == 10.
Proof.
  unfold checkUnsafeContent. apply finish_quiet.
  eapply grows_trans;
    [|apply grows_fold; intros a x; unfold inappropriateStep; step_grows].
  apply grows_fold. intros a x. apply unsafeStep_grows.
Qed.

Lemma assessQuality_quiet sim r :
  Check.issues (assessQuality sim r) = [] ->
  Check.score (assessQuality sim r) == 10.
Proof.
  unfold assessQuality. apply finish_quiet.
  eapply grows_trans; [|unfold formalityStep; step_grows].
  eapply grows_trans; [|unfold repetitionStep; step_grows].
  unfold lengthStep. step_grows.
Qed.

Lemma ofNat_le a b : (a <= b)%nat -> ofNat a <= ofNat b.
Proof.
  intros H. unfold ofNat. rewrite <- Zle_Qle. lia.
Qed.

Lemma validateSourceCitations_quiet r st :
  Check.issues (fst (validateSourceCitations r st)) = [] ->
  Check.score (fst (validateSourceCitations r st)) == 10.
Proof.
  unfold validateSourceCitations.
  set (found := extractCitations r st).
  set (expected := Nat.max 1 (String.length r / 200)).
  destruct (validateFormats found st) as [fi st'].
  destruct (List.length found =? 0)%nat eqn:E0; [discriminate|].
  destruct (List.length found <? expected)%nat eqn:E1; [discriminate|].
  intros _. cbn [fst Check.score].
  apply Nat.ltb_ge in E1.
  assert (He : 1 <= ofNat expected) by (apply (ofNat_le 1); unfold expected; lia).
  assert (Hc : ofNat expected <= ofNat (List.length found)) by now apply ofNat_le.
  unfold Math_min. apply Q.min_l.
  assert (Hq : 1 <= ofNat (List.length found) / ofNat expected)
    by (apply Qle_shift_div_l; lra).
  lra.
Qed.

Lemma validateTopicRelevance_quiet q r :
  Check.issues (validateTopicRelevance q r) = [] ->
  3 <= Check.score (validateTopicRelevance q r).
Proof.
  intros H. apply Qltb_false.
  destruct (Qltb (Check.score (validateTopicRelevance q r)) 3) eqn:E; [|reflexivity].
  destruct (off_topic_is_critical q r E) as [i [Hi _]]. congruence.
Qed.

Lemma flat_map_nil {A B} (f : A -> list B) (l : list A) :
  flat_map f l = [] -> Forall (fun x => f x = []) l.
Proof.
  induction l as [|x l IH]; cbn; intros H; constructor.
  - now destruct (app_eq_nil _ _ H).
  - apply IH. now destruct (app_eq_nil _ _ H).
Qed.

Lemma quiet_total sim q r st :
  Forall (fun o => Check.issues o = []) (checkOutcomes sim q r st) ->
  63 <= totalScore (checkOutcomes sim q r st).
Proof.
  unfold checkOutcomes. intros H.
  repeat match goal with
         | H : Forall _ (_ :: _) |- _ => apply Forall_cons_iff in H; destruct H as [? H]
         end.
  repeat rewrite totalScore_cons.
  rewrite validateSourceCitations_quiet, detectHallucinations_quiet,
    checkLogicalConsistency_quiet, validateCompleteness_quiet,
    checkUnsafeContent_quiet, assessQuality_quiet by assumption.
  assert (Ht : 3 <= Check.score (validateTopicRelevance q r))
    by now apply validateTopicRelevance_quiet.
  assert (E0 : totalScore [] == 0) by reflexivity.
  rewrite E0. lra.
Qed.

Lemma quiet_confidence r outs :
  Forall inRange outs -> List.length outs = 7%nat -> 63 <= totalScore outs ->
  90 <= confidence (aggregate r outs).
Proof.
  intros Hl Hn Ht.
  assert (Hne : outs <> []) by (destruct outs; [discriminate | congruence]).
  destruct (aggregate_confidence r outs Hl Hne) as [Hc _].
  destruct (totals_inRange outs Hl) as [Hm _].
  rewrite Hc, Hm, Hn.
  apply Qle_shift_div_l; [reflexivity|].
  change (10 * ofNat 7) with (70 # 1). lra.
Qed.

Lemma aggregate_issues r outs : issues (aggregate r outs) = flat_map Check.issues outs.
Proof. reflexivity. Qed.

Lemma quiet_valid r outs :
  issues (aggregate r outs) = [] -> 70 <= confidence (aggregate r outs) ->
  isValid (aggregate r outs) = true.
Proof.
  unfold aggregate. cbn [isValid confidence issues]. intros -> Hc.
  cbn [existsb negb]. rewrite andb_true_r. now apply Qle_bool_iff.
Qed.

(** X4 -- a result without issues.  When the seven checks raise no issue
    at all, the result is valid and its confidence is at least 90: only the
    topic check can score below 10 without raising an issue, and then not
    below 3. *)
Theorem no_issue_means_valid :
  forall sim q r st,
    issues (fst (validateResponse sim q r st)) = [] ->
    isValid (fst (validateResponse sim q r st)) = true
    /\ 90 <= confidence (fst (validateResponse sim q r st)).
Proof.
  intros sim q r st. rewrite validateResponse_aggregate.
  generalize (checkOutcomes_inRange sim q r st) (quiet_total sim q r st).
  assert (Hn : List.length (checkOutcomes sim q r st) = 7%nat) by reflexivity.
  revert Hn. generalize (checkOutcomes sim q r st). intros outs Hn Hl Hq Hi.
  assert (Hconf : 90 <= confidence (aggregate r outs)).
  { apply quiet_confidence; [exact Hl | exact Hn |].
    apply Hq. apply flat_map_nil. now rewrite <- (aggregate_issues r). }
  split; [|exact Hconf].
  apply quiet_valid; [exact Hi | lra].
Qed.

Lemma no_issue_means_valid_witness :
  isValid (fst (validateResponse StringSimilarity.compareTwoStrings
                  theftQuery theftResponse freshStore)) = true
  /\ 90 <= confidence (fst (validateResponse StringSimilarity.compareTwoStrings
                              theftQuery theftResponse freshStore)).
Proof.
  apply (no_issue_means_valid StringSimilarity.compareTwoStrings
           theftQuery theftResponse freshStore).
  vm_compute. reflexivity.
Defined.

(** *** Validity under any checks *)

Lemma promiseAll_returned cs outs :
  promiseAll cs = Returned outs -> cs = map Returned outs.
Proof.
  revert outs. induction cs as [|c cs IH]; intros outs H; cbn in H.
  - now injection H as <-.
  - destruct c as [o|e]; [|discriminate].
    destruct (promiseAll cs) as [os|e]; [|discriminate].
    injection H as <-. cbn. now rewrite (IH os eq_refl).
Qed.

Lemma aggregate_valid_no_critical r outs :
  isValid (aggregate r outs) = true ->
  Forall (fun i => severity i <> CRITICAL) (issues (aggregate r outs)).
Proof.
  unfold aggregate. cbn [isValid issues]. intros H.
  apply andb_true_iff in H. destruct H as [_ H]. apply negb_true_iff in H.
  apply Forall_forall. intros i Hi Hs.
  assert (E : existsb isCritical (flat_map Check.issues outs) = true).
  { apply existsb_exists. exists i. split; [exact Hi|]. unfold isCritical. now rewrite Hs. }
  congruence.
Qed.

(** X5 -- validity under any checks.  Whatever the checks handed to the
    orchestrator are, a result it declares valid comes from a run in which
    every check returned, has confidence at least 70, carries no CRITICAL
    issue, and has the response as validated text: a check that throws can
    never lead to a valid result. *)
Theorem orchestrate_valid_sound :
  forall checks aiResponse st,
    isValid (fst (orchestrate checks aiResponse st)) = true ->
    (exists outcomes, fst (runChecks checks st) = map Returned outcomes)
    /\ 70 <= confidence (fst (orchestrate checks aiResponse st))
    /\ Forall (fun i => severity i <> CRITICAL)
         (issues (fst (orchestrate checks aiResponse st)))
    /\ validatedText (fst (orchestrate checks aiResponse st)) = aiResponse.
Proof.
  intros checks r st. unfold orchestrate.
  destruct (runChecks checks st) as [cs st']. cbn [fst].
  destruct (promiseAll cs) as [outs|e] eqn:E; cbn [fst]; intros H; [|discriminate].
  split; [|split; [|split]].
  - exists outs. now apply promiseAll_returned.
  - now apply valid_confidence.
  - now apply aggregate_valid_no_critical.
  - reflexivity.
Qed.

Lemma orchestrate_valid_sound_witness :
  (exists outcomes,
      fst (runChecks (theChecks StringSimilarity.compareTwoStrings theftQuery theftResponse)
             freshStore) = map Returned outcomes)
  /\ 70 <= confidence (fst (orchestrate
                              (theChecks StringSimilarity.compareTwoStrings
                                 theftQuery theftResponse) theftResponse freshStore))
  /\ Forall (fun i => severity i <> CRITICAL)
       (issues (fst (orchestrate
                       (theChecks StringSimilarity.compareTwoStrings
                          theftQuery theftResponse) theftResponse freshStore)))
  /\ validatedText (fst (orchestrate
                           (theChecks StringSimilarity.compareTwoStrings
                              theftQuery theftResponse) theftResponse freshStore))
     = theftResponse.
Proof.
  apply (orchestrate_valid_sound
           (theChecks StringSimilarity.compareTwoStrings theftQuery theftResponse)
           theftResponse freshStore).
  vm_compute. reflexivity.
Defined.

(** *** The type of a citation *)

Lemma substring_app_prefix a b :
  forall s m, substring m (String.length (a ++ b)) s = (a ++ b)%string ->
              substring m (String.length a) s = a.
Proof.
  intros s. induction s as [|c s IH]; intros m H.
  - destruct a as [|x a]; [now destruct m|].
    destruct m; discriminate.
  - destruct m as [|m]; [|cbn in H |- *; now apply IH].
    clear IH. revert c s H. induction a as [|x a IHa]; intros c s H; [reflexivity|].
    cbn in H |- *. injection H as -> H. f_equal.
    destruct s as [|c' s].
    + destruct a; [reflexivity | discriminate].
    + now apply IHa.
Qed.

Lemma includes_app_l s a b :
  JS.includes s (a ++ b) = true -> JS.includes s a = true.
Proof.
  unfold JS.includes, JS.indexOf.
  destruct (index 0 (a ++ b) s) as [m|] eqn:E; [intros _|discriminate].
  destruct a as [|x a]; [now rewrite index_empty|].
  destruct (index 0 (String x a) s) eqn:E'; [reflexivity|]. exfalso.
  apply (index_correct3 0 m _ _ E'); [discriminate | lia |].
  apply substring_app_prefix with b. exact (index_correct1 _ _ _ _ E).
Qed.

(** X6 -- citation types that are never produced.  [determineCitationType]
    tests "UU" before "UUD" and "KUHP" before "KUHPerdata", and each
    longer word contains the shorter one: no citation is ever typed UUD or
    KUHPERDATA.  A civil-code citation is typed KUHP and a constitution
    citation UU. *)
Theorem determineCitationType_shadowed :
  (forall citation,
      determineCitationType citation <> UUD
      /\ determineCitationType citation <> KUHPERDATA)
  /\ determineCitationType "KUHPerdata Pasal 1320" = KUHP
  /\ determineCitationType "UUD 1945 Pasal 28A" = UU.
Proof.
  split; [|split; vm_compute; reflexivity].
  intros citation. unfold determineCitationType.
  destruct (JS.includes citation "UU") eqn:EUU; cbn [orb]; [split; discriminate|].
  destruct (JS.includes citation "Undang-Undang"); [split; discriminate|].
  destruct (JS.includes citation "Perppu"); [split; discriminate|].
  destruct (JS.includes citation "Perpres"); [split; discriminate|].
  destruct (JS.includes citation "KUHP") eqn:EK; [split; discriminate|].
  destruct (JS.includes citation "KUHPerdata") eqn:EKP.
  - apply (includes_app_l citation "KUHP" "erdata") in EKP. congruence.
  - destruct (JS.includes citation "UUD") eqn:EUUD.
    + apply (includes_app_l citation "UU" "D") in EUUD. congruence.
    + destruct (JS.includes citation "Putusan"); split; discriminate.
Qed.

(** *** The error message *)

Lemma calm_push a i d : isCritical i = false -> calm a -> calm (push a i d).
Proof.
  unfold calm. intros Hi Ha. cbn. rewrite filter_app, Ha. cbn. now rewrite Hi.
Qed.

Ltac step_calm :=
  intros; cbn beta;
  repeat match goal with
         | |- context [ if ?b then _ else _ ] => destruct b
         | |- context [ match ?m with _ => _ end ] => destruct m
         end;
  auto using calm_push.

Lemma detectHallucinations_calm sim r :
  filter isCritical (Check.issues (detectHallucinations sim r)) = [].
Proof.
  unfold detectHallucinations, finish. cbn [Check.issues].
  repeat (apply fold_left_invariant with (P := calm); [ intros a x Ha | ]).
  - unfold absoluteStep. step_calm.
  - unfold knowledgeStep. destruct x. step_calm.
  - unfold misconceptionStep. destruct x. step_calm.
  - reflexivity.
Qed.

Lemma checkLogicalConsistency_calm sim r :
  filter isCritical (Check.issues (checkLogicalConsistency sim r)) = [].
Proof.
  unfold checkLogicalConsistency, finish. cbn [Check.issues].
  assert (H : calm (fold_left (contradictionStep r) contradictoryPairs (10, []))).
  { apply fold_left_invariant with (P := calm).
    - intros a x Ha. unfold contradictionStep. step_calm.
    - reflexivity. }
  revert H. generalize (fold_left (contradictionStep r) contradictoryPairs (10, [])).
  intros a Ha. change (calm (flowStep sim r a)). unfold flowStep. step_calm.
Qed.

Lemma validateCompleteness_calm q r :
  filter isCritical (Check.issues (validateCompleteness q r)) = [].
Proof.
  unfold validateCompleteness, finish. cbn [Check.issues].
  assert (H0 : calm ((10, []) : Acc)) by reflexivity.
  revert H0. generalize ((10, []) : Acc). intros a0 H0.
  assert (H1 : calm (proceduralStep q r a0)) by (unfold proceduralStep; step_calm).
  revert H1. generalize (proceduralStep q r a0). intros a1 H1.
  assert (H2 : calm (brevityStep q r a1)) by (unfold brevityStep; step_calm).
  revert H2. generalize (brevityStep q r a1). intros a2 H2.
  change (calm (definitionStep q r a2)). unfold definitionStep; step_calm.
Qed.

Lemma assessQuality_calm sim r :
  filter isCritical (Check.issues (assessQuality sim r)) = [].
Proof.
  unfold assessQuality, finish. cbn [Check.issues].
  assert (H0 : calm ((10, []) : Acc)) by reflexivity.
  revert H0. generalize ((10, []) : Acc). intros a0 H0.
  assert (H1 : calm (lengthStep r a0)) by (unfold lengthStep; step_calm).
  revert H1. generalize (lengthStep r a0). intros a1 H1.
  assert (H2 : calm (repetitionStep sim r a1)) by (unfold repetitionStep; step_calm).
  revert H2. generalize (repetitionStep sim r a1). intros a2 H2.
  change (calm (formalityStep r a2)). unfold formalityStep; step_calm.
Qed.

Lemma validateFormats_calm found :
  forall st, filter isCritical (fst (validateFormats found st)) = [].
Proof.
  induction found as [|c found IH]; intros st; cbn [validateFormats]; [reflexivity|].
  destruct (isValidCitationFormat (fullCitation c) st) as [ok st1].
  specialize (IH st1). destruct (validateFormats found st1) as [more st2].
  cbn [fst] in *. rewrite filter_app, IH. now destruct ok.
Qed.

Lemma validateSourceCitations_critical r st :
  filter isCritical (Check.issues (fst (validateSourceCitations r st)))
  = if (List.length (extractCitations r st) =? 0)%nat then [noCitationIssue] else [].
Proof.
  unfold validateSourceCitations.
  pose proof (validateFormats_calm (extractCitations r st) st) as Hf.
  destruct (validateFormats (extractCitations r st) st) as [fi st'].
  cbn [fst] in Hf.
  destruct (List.length (extractCitations r st) =? 0)%nat; [|destruct (_ <? _)%nat];
    cbn [fst Check.issues]; rewrite filter_app, Hf; reflexivity.
Qed.

Lemma validateTopicRelevance_critical q r :
  exists i, type i = TOPIC_IRRELEVANT
    /\ filter isCritical (Check.issues (validateTopicRelevance q r))
       = if Qltb (Check.score (validateTopicRelevance q r)) 3 then [i] else [].
Proof.
  unfold validateTopicRelevance. cbn [Check.score Check.issues].
  eexists (mkIssue TOPIC_IRRELEVANT CRITICAL _ _). split; [reflexivity|].
  destruct (Qltb _ 3); [reflexivity|]. now destruct (0 <? _)%nat.
Qed.

Lemma unsafe_critical_fold r l a :
  filter isCritical (snd (fold_left (unsafeStep r) l a))
  = filter isCritical (snd a)
    ++ repeat unsafeIssue (List.length (filter (fun p => testFresh p r) l)).
Proof.
  revert a. induction l as [|p l IH]; intros a; cbn.
  - now rewrite app_nil_r.
  - rewrite IH. unfold unsafeStep. destruct (testFresh p r); cbn; [|reflexivity].
    rewrite filter_app. cbn. now rewrite <- app_assoc.
Qed.

Lemma inappropriate_critical_fold r l a :
  filter isCritical (snd (fold_left (inappropriateStep r) l a)) = filter isCritical (snd a).
Proof.
  revert a. induction l as [|p l IH]; intros a; cbn; [reflexivity|].
  rewrite IH. unfold inappropriateStep. destruct (testFresh p r); [|reflexivity].
  cbn. rewrite filter_app. cbn. now rewrite app_nil_r.
Qed.

Lemma checkUnsafeContent_critical r :
  filter isCritical (Check.issues (checkUnsafeContent r))
  = repeat unsafeIssue (List.length (filter (fun p => testFresh p r) unsafePatterns)).
Proof.
  unfold checkUnsafeContent, finish. cbn [Check.issues].
  now rewrite inappropriate_critical_fold, unsafe_critical_fold.
Qed.

Lemma matchesUnsafe_count r :
  matchesUnsafe r = negb (List.length (filter (fun p => testFresh p r) unsafePatterns) =? 0)%nat.
Proof.
  unfold matchesUnsafe. induction unsafePatterns as [|p l IH]; cbn; [reflexivity|].
  destruct (testFresh p r); cbn; [reflexivity | exact IH].
Qed.

(** X7 -- the message shown for a result of the validator.  It is decided
    by the first CRITICAL issue in check order: the off-topic message when
    the topic score is below 3; else the missing-source message when no
    citation was found; else the unsafe-content message when an unsafe
    pattern matches; else the "may be incomplete" message.  The generic
    "cannot be validated" message is never shown for a result of the seven
    checks; it is the message of the fallback returned when a check throws. *)
Theorem error_message_priority :
  (forall sim q r st,
      generateErrorMessage (fst (validateResponse sim q r st))
      = if Qltb (Check.score (validateTopicRelevance q r)) 3 then Messages.offTopic
        else if (List.length (extractCitations r st) =? 0)%nat then Messages.missingSource
        else if matchesUnsafe r then Messages.unsafeContent
        else Messages.incomplete)
  /\ (forall checks r st,
        (exists e, In (Thrown e) (fst (runChecks checks st))) ->
        generateErrorMessage (fst (orchestrate checks r st)) = Messages.notValidated).
Proof.
  split.
  - intros sim q r st. rewrite validateResponse_aggregate.
    unfold generateErrorMessage. rewrite aggregate_issues.
    unfold checkOutcomes. cbn [flat_map]. repeat rewrite filter_app.
    rewrite validateSourceCitations_critical, detectHallucinations_calm,
      checkLogicalConsistency_calm, validateCompleteness_calm,
      checkUnsafeContent_critical, assessQuality_calm, matchesUnsafe_count.
    destruct (validateTopicRelevance_critical q r) as [i [Hi ->]].
    destruct (Qltb _ 3); [cbn [app]; now rewrite Hi|].
    destruct (List.length (extractCitations r st) =? 0)%nat; [reflexivity|].
    cbn [app filter].
    destruct (List.length (filter (fun p => testFresh p r) unsafePatterns)); reflexivity.
  - intros checks r st [e He]. unfold orchestrate.
    destruct (runChecks checks st) as [cs st']. cbn [fst] in He.
    destruct (promiseAll_thrown cs e He) as [e' ->]. reflexivity.
Qed.

Lemma error_message_priority_witness :
  generateErrorMessage
    (fst (orchestrate (failingChecks "Apa itu hukum?" "KUHP Pasal 362")
            "KUHP Pasal 362" freshStore))
  = Messages.notValidated.
Proof.
  apply (proj2 error_message_priority
           (failingChecks "Apa itu hukum?" "KUHP Pasal 362") "KUHP Pasal 362" freshStore).
  exists "TypeError: Cannot read properties of undefined".
  vm_compute. right. right. left. reflexivity.
Defined.

(** *** Letter case in the topic check *)

Lemma lowerChar_idem c : JS.lowerChar (JS.lowerChar c) = JS.lowerChar c.
Proof.
  destruct c as [[] [] [] [] [] [] [] []]; reflexivity.
Qed.

Lemma toLowerCase_idem s : JS.toLowerCase (JS.toLowerCase s) = JS.toLowerCase s.
Proof.
  induction s as [|c s IH]; cbn; [reflexivity|]. now rewrite lowerChar_idem, IH.
Qed.

Lemma toLowerCase_app a b :
  JS.toLowerCase (a ++ b) = (JS.toLowerCase a ++ JS.toLowerCase b)%string.
Proof.
  induction a as [|c a IH]; cbn; [reflexivity|]. now rewrite IH.
Qed.

Lemma topic_text_lower q r :
  JS.toLowerCase (JS.toLowerCase q ++ " " ++ JS.toLowerCase r)
  = JS.toLowerCase (q ++ " " ++ r).
Proof.
  rewrite !toLowerCase_app, !toLowerCase_idem. reflexivity.
Qed.

(** X8 -- letter case in the topic check.  The topic-relevance check gives
    the same outcome (score and issues) for a query and a response as for
    their lower-cased forms; more generally, for any two exchanges that
    differ in letter case only. *)
Theorem topic_relevance_ignores_case :
  forall q r q' r',
    JS.toLowerCase q = JS.toLowerCase q' ->
    JS.toLowerCase r = JS.toLowerCase r' ->
    validateTopicRelevance q r = validateTopicRelevance q' r'.
Proof.
  intros q r q' r' Hq Hr. unfold validateTopicRelevance.
  rewrite <- (topic_text_lower q r), <- (topic_text_lower q' r'), Hq, Hr.
  reflexivity.
Qed.

Lemma topic_relevance_ignores_case_witness :
  validateTopicRelevance "APA SANKSI PIDANA?" "Lihat KUHP Pasal 362"
  = validateTopicRelevance "apa sanksi pidana?" "lihat kuhp pasal 362".
Proof.
  apply (topic_relevance_ignores_case
           "APA SANKSI PIDANA?" "Lihat KUHP Pasal 362"
           "apa sanksi pidana?" "lihat kuhp pasal 362");
    vm_compute; reflexivity.
Defined.

(** *** Suggestions *)

(** X9 -- suggestions.  For any list of issues, [generateSuggestions] holds
    no string twice, holds the (non-empty) suggestion of every issue, holds
    the general source suggestion whenever a MISSING_SOURCE issue is
    present, and holds nothing but suggestions of the issues and the three
    general ones.  In a result of the validator the suggestions are absent
    exactly when the result is valid. *)
Theorem generateSuggestions_spec :
  (forall issues,
      NoDup (generateSuggestions issues)
      /\ (forall i s, In i issues -> suggestion i = Some s -> s <> EmptyString ->
                      In s (generateSuggestions issues))
      /\ (hasType MISSING_SOURCE issues = true ->
          In "Include specific references to Indonesian laws with article numbers"
             (generateSuggestions issues))
      /\ (forall s, In s (generateSuggestions issues) ->
                    (exists i, In i issues /\ suggestion i = Some s)
                    \/ In s generalSuggestions))
  /\ (forall sim q r st,
        suggestions (fst (validateResponse sim q r st))
        = if isValid (fst (validateResponse sim q r st)) then None
          else Some (generateSuggestions (issues (fst (validateResponse sim q r st))))).
Proof.
  split.
  - intros issues. unfold generateSuggestions.
    split; [apply uniqueFrom_NoDup|]. split; [|split].
    + intros i s Hi Hs Hne. apply unique_In. apply in_or_app. left.
      apply in_flat_map. exists i. split; [exact Hi|]. rewrite Hs.
      destruct s; [congruence | now left].
    + intros H. apply unique_In. apply in_or_app. right. rewrite H. now left.
    + intros s Hs. apply (proj1 (unique_In _ _)) in Hs.
      apply in_app_or in Hs. destruct Hs as [Hs|Hs].
      * left. apply in_flat_map in Hs. destruct Hs as [i [Hi Hs]]. exists i. split; [exact Hi|].
        destruct (suggestion i) as [s'|]; [|contradiction].
        destruct (truthy s'); [|contradiction]. destruct Hs as [->|[]]. reflexivity.
      * right. unfold generalSuggestions.
        destruct (hasType MISSING_SOURCE issues), (hasType TOPIC_IRRELEVANT issues),
          (hasType INCOMPLETE issues); cbn in Hs |- *; tauto.
  - intros sim q r st. rewrite validateResponse_aggregate.
    generalize (checkOutcomes sim q r st). intros outs.
    unfold aggregate. cbn [suggestions isValid issues].
    now destruct (Qleb 70 _ && _).
Qed.

Lemma generateSuggestions_spec_witness :
  In "Include specific references to Indonesian laws (UU, KUHP, etc.) with article numbers"
     (generateSuggestions [noCitationIssue]).
Proof.
  apply (proj1 (proj2 (proj1 generateSuggestions_spec [noCitationIssue])) noCitationIssue).
  - now left.
  - reflexivity.
  - discriminate.
Defined.

(** *** The state left by a failed re-validation *)

Lemma lastIndex_set_same st : forall i v, lastIndex (setLastIndex st i v) i = v.
Proof.
  unfold lastIndex. induction st as [|x st IH]; intros i v.
  - induction i as [|i IHi]; cbn; [reflexivity | exact IHi].
  - destruct i; cbn; [reflexivity | apply IH].
Qed.

Lemma lastIndex_set_other st :
  forall i j v, i <> j -> lastIndex (setLastIndex st i v) j = lastIndex st j.
Proof.
  unfold lastIndex. induction st as [|x st IH]; intros i j v Hij.
  - revert j Hij. induction i as [|i IHi]; intros j Hij; cbn.
    + destruct j as [|j]; [congruence|]. cbn. now destruct j.
    + destruct j as [|j]; [reflexivity|]. cbn. rewrite IHi by congruence. now destruct j.
  - destruct i, j; cbn; try reflexivity; try congruence. apply IH. congruence.
Qed.

Lemma test_false re li s e : test re li s = (false, e) -> e = 0%nat.
Proof.
  unfold test. destruct (exec re li s) as [[b e']|]; congruence.
Qed.

Ltac nat_cases :=
  repeat match goal with
         | |- context [ (?a <=? ?b)%nat ] => destruct (Nat.leb_spec a b)
         | |- context [ (?a <? ?b)%nat ] => destruct (Nat.ltb_spec a b)
         end;
  cbn [andb]; try reflexivity; try lia.

Lemma someTest_false citation :
  forall patterns i st st',
    someTest patterns i citation st = (false, st') ->
    forall j, lastIndex st' j
              = if ((i <=? j) && (j <? i + List.length patterns))%nat then 0%nat
                else lastIndex st j.
Proof.
  induction patterns as [|p ps IH]; intros i st st' H j; cbn [someTest] in H.
  - injection H as <-. cbn [List.length]. nat_cases.
  - destruct (test p (lastIndex st i) citation) as [ok li] eqn:Et.
    destruct ok; [discriminate|].
    apply test_false in Et. subst li.
    rewrite (IH _ _ _ H j). cbn [List.length].
    destruct (Nat.eq_dec i j) as [<-|Hne].
    + rewrite lastIndex_set_same. nat_cases.
    + rewrite lastIndex_set_other by exact Hne. nat_cases.
Qed.

Lemma extractFrom_ext r st st' :
  forall patterns i,
    (forall j, (i <= j < i + List.length patterns)%nat -> lastIndex st j = lastIndex st' j) ->
    extractFrom patterns i r st = extractFrom patterns i r st'.
Proof.
  induction patterns as [|p ps IH]; intros i H; cbn; [reflexivity|].
  rewrite (H i) by (cbn; lia). f_equal.
  apply IH. intros j Hj. apply H. cbn. lia.
Qed.

Lemma lastIndex_fresh j : lastIndex freshStore j = 0%nat.
Proof.
  unfold lastIndex, freshStore.
  do 10 (destruct j as [|j]; [reflexivity|]). now destruct j.
Qed.

(** X10 -- after a failed re-validation.  When [isValidCitationFormat]
    answers false, every pattern was tested and failed, so every
    [lastIndex] of the citation patterns is back to 0: citations are then
    extracted from any response exactly as in the freshly loaded state. *)
Theorem failed_revalidation_resets :
  forall citation st,
    fst (isValidCitationFormat citation st) = false ->
    (forall j, (j < 10)%nat -> lastIndex (snd (isValidCitationFormat citation st)) j = 0%nat)
    /\ (forall r, extractCitations r (snd (isValidCitationFormat citation st))
                  = extractCitations r freshStore).
Proof.
  intros citation st H. unfold isValidCitationFormat in *.
  destruct (someTest CITATION_PATTERNS 0 citation st) as [ok st'] eqn:E.
  cbn [fst snd] in *. subst ok.
  pose proof (someTest_false citation _ _ _ _ E) as Hall.
  assert (Hzero : forall j, (j < 10)%nat -> lastIndex st' j = 0%nat).
  { intros j Hj. rewrite Hall.
    change (List.length CITATION_PATTERNS) with 10%nat. nat_cases. }
  split; [exact Hzero|].
  intros r. unfold extractCitations. apply extractFrom_ext.
  intros j Hj. rewrite lastIndex_fresh. apply Hzero. cbn in Hj. lia.
Qed.

Lemma failed_revalidation_resets_witness :
  (forall j, (j < 10)%nat ->
             lastIndex (snd (isValidCitationFormat "KUHP Pasal 363"
                               (setLastIndex freshStore 4 14))) j = 0%nat)
  /\ (forall r, extractCitations r (snd (isValidCitationFormat "KUHP Pasal 363"
                                           (setLastIndex freshStore 4 14)))
                = extractCitations r freshStore).
Proof.
  apply (failed_revalidation_resets "KUHP Pasal 363" (setLastIndex freshStore 4 14)).
  vm_compute. reflexivity.
Defined.

(* ===================================================================== *)
(** ** Properties of the callers *)
(* ===================================================================== *)

(** *** The limiter of the chat endpoint *)

Module ChatApiFacts.
Import ChatApi.
Local Open Scope Z_scope.

Lemma chat_set_lookup store key w k :
  set store key w k = if String.eqb k key then Some w else store k.
Proof. reflexivity. Qed.

Lemma bounded_set maxRequests store key w :
  bounded maxRequests store -> 1 <= count w <= maxRequests ->
  bounded maxRequests (set store key w).
Proof.
  intros Hb Hw k w'. rewrite chat_set_lookup.
  destruct (String.eqb k key); [intros [= <-]; exact Hw | apply Hb].
Qed.

Lemma checkRateLimit_step maxRequests now clientIp store :
  1 <= maxRequests -> bounded maxRequests store ->
  wellFormed maxRequests (fst (checkRateLimit maxRequests now clientIp store))
  /\ bounded maxRequests (snd (checkRateLimit maxRequests now clientIp store))
  /\ (allowed (fst (checkRateLimit maxRequests now clientIp store)) = false ->
      snd (checkRateLimit maxRequests now clientIp store) = store).
Proof.
  intros Hmax Hb. unfold checkRateLimit, wellFormed.
  destruct (store (keyOf clientIp)) as [current|] eqn:E.
  - pose proof (Hb _ _ E) as Hc.
    destruct (resetTime current <? now) eqn:E1; cbn.
    + split; [lia|]. split; [apply bounded_set; [exact Hb | cbn; lia] | discriminate].
    + destruct (maxRequests <=? count current) eqn:E2; cbn.
      * split; [reflexivity|]. split; [exact Hb | reflexivity].
      * apply Z.leb_gt in E2.
        split; [lia|]. split; [apply bounded_set; [exact Hb | cbn; lia] | discriminate].
  - cbn. split; [lia|]. split; [apply bounded_set; [exact Hb | cbn; lia] | discriminate].
Qed.

Lemma chat_serve_bounded maxRequests requests :
  1 <= maxRequests ->
  forall store, bounded maxRequests store ->
    Forall (wellFormed maxRequests) (fst (serve maxRequests requests store))
    /\ bounded maxRequests (snd (serve maxRequests requests store)).
Proof.
  intros Hmax. induction requests as [|[now ip] rest IH]; intros store Hb; cbn.
  - split; [constructor | exact Hb].
  - destruct (checkRateLimit_step maxRequests now ip store Hmax Hb) as [H1 [H2 _]].
    destruct (checkRateLimit maxRequests now ip store) as [r store1]. cbn [fst snd] in *.
    destruct (IH store1 H2) as [H3 H4].
    destruct (serve maxRequests rest store1) as [rs store2]. cbn [fst snd] in *.
    split; [now constructor | exact H4].
Qed.

(** X11 -- the counters of the chat endpoint.  With a limit between 1 and
    2^53 (the range in which the subtractions and the increment of the
    source, done on doubles, are exact) and any sequence of requests (any
    clients, any arrival times) served from the empty store: every allowed
    answer reports a remaining quota in [0, limit), every refused answer
    reports 0, every stored window has counted between 1 and the limit, and
    a refused request leaves the store as it was. *)
Theorem chat_rate_limit_bounded :
  forall maxRequests requests,
    1 <= maxRequests <= 2 ^ 53 ->
    Forall (wellFormed maxRequests) (fst (serve maxRequests requests emptyStore))
    /\ bounded maxRequests (snd (serve maxRequests requests emptyStore))
    /\ (forall now clientIp,
          let store := snd (serve maxRequests requests emptyStore) in
          allowed (fst (checkRateLimit maxRequests now clientIp store)) = false ->
          snd (checkRateLimit maxRequests now clientIp store) = store).
Proof.
  intros maxRequests requests [Hmax _].
  assert (H0 : bounded maxRequests emptyStore) by (intros k w; discriminate).
  destruct (chat_serve_bounded maxRequests requests Hmax emptyStore H0) as [H1 H2].
  split; [exact H1 | split; [exact H2|]].
  intros now ip store. now apply checkRateLimit_step.
Qed.

Lemma chat_rate_limit_bounded_witness :
  Forall (wellFormed 2)
    (fst (serve 2 [(0, "10.0.0.1"); (5, "10.0.0.1"); (9, "10.0.0.1"); (70000, "10.0.0.1")]
            emptyStore))
  /\ bounded 2
       (snd (serve 2 [(0, "10.0.0.1"); (5, "10.0.0.1"); (9, "10.0.0.1"); (70000, "10.0.0.1")]
               emptyStore))
  /\ (forall now clientIp,
        let store :=
          snd (serve 2 [(0, "10.0.0.1"); (5, "10.0.0.1"); (9, "10.0.0.1"); (70000, "10.0.0.1")]
                 emptyStore) in
        allowed (fst (checkRateLimit 2 now clientIp store)) = false ->
        snd (checkRateLimit 2 now clientIp store) = store).
Proof.
  apply (chat_rate_limit_bounded 2
           [(0, "10.0.0.1"); (5, "10.0.0.1"); (9, "10.0.0.1"); (70000, "10.0.0.1")]).
  split; [lia | apply Z.leb_le; vm_compute; reflexivity].
Defined.

Lemma serve_open_window maxRequests clientIp closes :
  forall requests store c,
    withinWindow clientIp closes requests ->
    store (keyOf clientIp) = Some (mkWindow c closes) ->
    1 <= c <= maxRequests ->
    allowedCount (fst (serve maxRequests requests store))
    = Nat.min (List.length requests) (Z.to_nat (maxRequests - c)).
Proof.
  induction requests as [|[now ip] rest IH]; intros store c Hw Hs Hc; cbn [serve].
  - reflexivity.
  - apply Forall_cons_iff in Hw. destruct Hw as [[Hip Hnow] Hrest].
    cbn [fst snd] in Hip, Hnow. subst ip.
    unfold checkRateLimit. rewrite Hs. cbn [resetTime count].
    replace (closes <? now) with false by (symmetry; apply Z.ltb_ge; lia).
    destruct (maxRequests <=? c) eqn:E.
    + apply Z.leb_le in E.
      specialize (IH store c Hrest Hs Hc).
      destruct (serve maxRequests rest store) as [rs store2]. cbn [fst] in *.
      unfold allowedCount in *. cbn. rewrite IH.
      replace (Z.to_nat (maxRequests - c)) with 0%nat by lia.
      now rewrite !Nat.min_0_r.
    + apply Z.leb_gt in E.
      assert (Hs' : set store (keyOf clientIp) (mkWindow (c + 1) closes) (keyOf clientIp)
                    = Some (mkWindow (c + 1) closes))
        by (rewrite chat_set_lookup; now rewrite String.eqb_refl).
      specialize (IH _ (c + 1) Hrest Hs' ltac:(lia)).
      destruct (serve maxRequests rest _) as [rs store2]. cbn [fst] in *.
      unfold allowedCount in *. cbn. rewrite IH.
      replace (Z.to_nat (maxRequests - c)) with (S (Z.to_nat (maxRequests - (c + 1)))) by lia.
      reflexivity.
Qed.

(** X12 -- the quota of one window.  A client unknown to the store sends a
    first request at time [t0] and further requests no later than
    [t0 + 60000]: exactly min(number of requests, limit) of them are
    allowed (limit at least 1). *)
Theorem chat_window_quota :
  forall maxRequests t0 clientIp rest store,
    1 <= maxRequests ->
    store (keyOf clientIp) = None ->
    withinWindow clientIp (t0 + 60000) rest ->
    allowedCount (fst (serve maxRequests ((t0, clientIp) :: rest) store))
    = Nat.min (S (List.length rest)) (Z.to_nat maxRequests).
Proof.
  intros maxRequests t0 ip rest store Hmax Hnone Hw. cbn [serve].
  unfold checkRateLimit. rewrite Hnone.
  assert (Hs : set store (keyOf ip) (mkWindow 1 (t0 + 60 * 1000)) (keyOf ip)
               = Some (mkWindow 1 (t0 + 60000)))
    by (rewrite chat_set_lookup; now rewrite String.eqb_refl).
  pose proof (serve_open_window maxRequests ip (t0 + 60000) rest _ 1 Hw Hs ltac:(lia)) as H.
  destruct (serve maxRequests rest _) as [rs store2]. cbn [fst] in *.
  unfold allowedCount in *. cbn. rewrite H.
  replace (Z.to_nat maxRequests) with (S (Z.to_nat (maxRequests - 1))) by lia.
  reflexivity.
Qed.

Lemma chat_window_quota_witness :
  allowedCount (fst (serve 2 [(0, "10.0.0.1"); (5, "10.0.0.1"); (60000, "10.0.0.1")] emptyStore))
  = Nat.min 3 (Z.to_nat 2).
Proof.
  apply (chat_window_quota 2 0 "10.0.0.1" [(5, "10.0.0.1"); (60000, "10.0.0.1")] emptyStore).
  - lia.
  - reflexivity.
  - repeat constructor; cbn; lia.
Defined.

End ChatApiFacts.

(** *** The limiter and the sanitizer of the model client *)

Module GeminiFacts.
Import Gemini.
Local Open Scope Z_scope.

Lemma limiter_set_lookup requests identifier times k :
  set requests identifier times k
  = if String.eqb k identifier then Some times else requests k.
Proof. reflexivity. Qed.

Lemma canMakeRequest_step maxRequests windowMs now identifier requests :
  bounded maxRequests requests ->
  bounded maxRequests (snd (canMakeRequest maxRequests windowMs now identifier requests))
  /\ (fst (canMakeRequest maxRequests windowMs now identifier requests) = false ->
      snd (canMakeRequest maxRequests windowMs now identifier requests) = requests).
Proof.
  intros Hb. unfold canMakeRequest.
  set (valid := filter _ _).
  destruct (maxRequests <=? Z.of_nat (List.length valid)) eqn:E; cbn [fst snd].
  - split; [exact Hb | reflexivity].
  - apply Z.leb_gt in E. split; [|discriminate].
    intros k times. rewrite limiter_set_lookup.
    destruct (String.eqb k identifier); [|apply Hb].
    intros [= <-]. rewrite length_app. cbn [List.length]. lia.
Qed.

Lemma limiter_serve_bounded maxRequests windowMs calls :
  forall requests, bounded maxRequests requests ->
    bounded maxRequests (snd (serve maxRequests windowMs calls requests)).
Proof.
  induction calls as [|[now identifier] rest IH]; intros requests Hb; cbn; [exact Hb|].
  destruct (canMakeRequest_step maxRequests windowMs now identifier requests Hb) as [H1 _].
  destruct (canMakeRequest maxRequests windowMs now identifier requests) as [ok requests1].
  cbn [snd] in H1. specialize (IH requests1 H1).
  destruct (serve maxRequests windowMs rest requests1) as [oks requests2]. exact IH.
Qed.

Lemma filter_length_le {A} (f : A -> bool) (l : list A) :
  (List.length (filter f l) <= List.length l)%nat.
Proof.
  induction l as [|x l IH]; cbn; [lia|]. destruct (f x); cbn; lia.
Qed.

Lemma filter_all {A} (f : A -> bool) (l : list A) :
  List.length (filter f l) = List.length l -> Forall (fun x => f x = true) l.
Proof.
  induction l as [|x l IH]; cbn; intros H; [constructor|].
  pose proof (filter_length_le f l) as Hle.
  destruct (f x) eqn:E; cbn in H; [|lia].
  constructor; [exact E | apply IH; lia].
Qed.

Lemma oldest_in first rest : In (oldest first rest) (first :: rest).
Proof.
  unfold oldest. revert first. induction rest as [|x rest IH]; intros first; cbn.
  - now left.
  - destruct (IH (Z.min first x)) as [H|H]; [|right; right; exact H].
    rewrite <- H.
    destruct (Z.min_spec first x) as [[_ E]|[_ E]]; rewrite E.
    + left. reflexivity.
    + right. left. reflexivity.
Qed.

(** X13 -- the per-client limiter.  From the empty map and after any
    sequence of calls (any identifiers, any times, any limit and window):
    every stored list of time stamps is non-empty and no longer than the
    limit; a refused call leaves the map as it was; and, the limit being at
    least 1, a client that is refused is told a positive waiting time when
    [getTimeUntilReset] is evaluated at the same instant. *)
Theorem limiter_bounded_and_wait_positive :
  forall maxRequests windowMs calls now identifier,
    let requests := snd (serve maxRequests windowMs calls noRequests) in
    bounded maxRequests requests
    /\ (fst (canMakeRequest maxRequests windowMs now identifier requests) = false ->
        snd (canMakeRequest maxRequests windowMs now identifier requests) = requests
        /\ (1 <= maxRequests -> 0 < getTimeUntilReset windowMs now identifier requests)).
Proof.
  intros maxRequests windowMs calls now identifier requests.
  assert (Hb : bounded maxRequests requests).
  { apply limiter_serve_bounded. intros k times. discriminate. }
  split; [exact Hb|]. intros Hdenied.
  split; [now apply canMakeRequest_step|]. intros Hmax.
  unfold canMakeRequest in Hdenied. unfold getTimeUntilReset.
  set (stored := timesOf requests identifier) in *.
  destruct (maxRequests <=? _) eqn:E; [|discriminate]. apply Z.leb_le in E.
  pose proof (filter_length_le (fun time => now - time <? windowMs) stored) as Hle.
  assert (Hlen : Z.of_nat (List.length stored) <= maxRequests).
  { unfold stored, timesOf. destruct (requests identifier) as [times|] eqn:Er.
    - apply (Hb _ _ Er).
    - cbn. lia. }
  assert (Hall : Forall (fun time => (now - time <? windowMs) = true) stored)
    by (apply filter_all; lia).
  destruct stored as [|first rest] eqn:Es; [cbn in E; lia|].
  pose proof (oldest_in first rest) as Hin.
  apply (proj1 (Forall_forall _ _) Hall) in Hin. apply Z.ltb_lt in Hin. lia.
Qed.

Lemma limiter_bounded_and_wait_positive_witness :
  snd (canMakeRequest 1 60000 2 "anonymous"
         (snd (serve 1 60000 [(0, "anonymous"); (1, "anonymous")] noRequests)))
  = snd (serve 1 60000 [(0, "anonymous"); (1, "anonymous")] noRequests)
  /\ 0 < getTimeUntilReset 60000 2 "anonymous"
           (snd (serve 1 60000 [(0, "anonymous"); (1, "anonymous")] noRequests)).
Proof.
  destruct (proj2 (limiter_bounded_and_wait_positive 1 60000
                     [(0, "anonymous"); (1, "anonymous")] 2 "anonymous")) as [H1 H2].
  - vm_compute. reflexivity.
  - split; [exact H1 | apply H2; lia].
Defined.

(** *** Sanitization *)

Lemma replaceAux_markup s :
  forall prev, replaceAux markup EmptyString 0 prev s = dropMarkup s.
Proof.
  induction s as [|c s IH]; intros prev; [reflexivity|].
  cbn [replaceAux dropMarkup].
  unfold matchHere, markup, oneOf. cbn [source ignoreCase run clsMatches].
  fold (isMarkup c). destruct (isMarkup c).
  - cbn [done]. replace (String.length (String c s) - String.length s)%nat with 1%nat
      by (cbn [String.length]; lia).
    cbn [append]. apply IH.
  - now rewrite IH.
Qed.

Lemma dropMarkup_clean s : clean (dropMarkup s).
Proof.
  unfold clean. induction s as [|c s IH]; cbn [dropMarkup]; [constructor|].
  destruct (isMarkup c) eqn:E; [exact IH|].
  cbn [list_ascii_of_string]. now constructor.
Qed.

Lemma dropMarkup_empty s :
  dropMarkup s = EmptyString -> Forall (fun c => isMarkup c = true) (list_ascii_of_string s).
Proof.
  induction s as [|c s IH]; cbn [dropMarkup list_ascii_of_string]; intros H; [constructor|].
  destruct (isMarkup c) eqn:E; [|discriminate]. constructor; [exact E | now apply IH].
Qed.

Lemma substring_clean s : forall n, clean s -> clean (substring 0 n s).
Proof.
  unfold clean. induction s as [|c s IH]; intros [|n] H;
    cbn [substring list_ascii_of_string] in *; try constructor.
  - now inversion H.
  - apply IH. now inversion H.
Qed.

Lemma substring_length_le s : forall n, (String.length (substring 0 n s) <= n)%nat.
Proof.
  induction s as [|c s IH]; intros [|n]; cbn; try lia. specialize (IH n). lia.
Qed.

Lemma substring_empty s n : (0 < n)%nat -> substring 0 n s = EmptyString -> s = EmptyString.
Proof.
  destruct s, n; cbn; try lia; congruence.
Qed.

(** X14 -- sanitized input.  For every string: when [sanitizeInput]
    returns, the result has between 1 and 1000 characters and none of them
    is one of the five markup characters; when it throws, every character
    of the trimmed input is a markup character (in particular for the empty
    and the blank input). *)
Theorem sanitizeInput_spec :
  forall input,
    match sanitizeInput input with
    | Returned sanitized =>
        (1 <= String.length sanitized <= 1000)%nat /\ clean sanitized
    | Thrown _ =>
        Forall (fun c => isMarkup c = true) (list_ascii_of_string (JS.trim input))
    end.
Proof.
  intros input. unfold sanitizeInput, replaceAll. rewrite replaceAux_markup.
  destruct (truthy input) eqn:Et; cbn [negb].
  - destruct (String.length (substring 0 1000 (dropMarkup (JS.trim input))) =? 0)%nat eqn:E.
    + apply Nat.eqb_eq in E. apply dropMarkup_empty.
      apply (substring_empty _ 1000); [lia|].
      now destruct (substring 0 1000 (dropMarkup (JS.trim input))).
    + apply Nat.eqb_neq in E. split.
      * pose proof (substring_length_le (dropMarkup (JS.trim input)) 1000). lia.
      * apply substring_clean, dropMarkup_clean.
  - destruct input; [constructor | discriminate].
Qed.

Example sanitize_examples :
  sanitizeInput "  <b>Apa itu KUHP?</b>  " = Returned "bApa itu KUHP?/b"
  /\ sanitizeInput "<>" = Thrown "Input is empty after sanitization"
  /\ sanitizeInput EmptyString = Thrown "Invalid input: message must be a non-empty string".
Proof. repeat split; vm_compute; reflexivity. Qed.

End GeminiFacts.

(** *** A floor under the confidence *)

Ltac step_floor :=
  intros; cbn beta;
  repeat match goal with
         | |- context [ if ?b then _ else _ ] => destruct b
         end;
  cbn [fst push]; lra.

Lemma validateCompleteness_floor q r : 4 <= Check.score (validateCompleteness q r).
Proof.
  unfold validateCompleteness, finish. cbn [Check.score]. unfold Math_max.
  assert (H1 : forall a, fst a - 3 <= fst (proceduralStep q r a))
    by (unfold proceduralStep; step_floor).
  assert (H2 : forall a, fst a - 2 <= fst (brevityStep q r a))
    by (unfold brevityStep; step_floor).
  assert (H3 : forall a, fst a - 1 <= fst (definitionStep q r a))
    by (unfold definitionStep; step_floor).
  specialize (H1 (10, [])). cbn [fst] in H1.
  specialize (H2 (proceduralStep q r (10, []))).
  specialize (H3 (brevityStep q r (proceduralStep q r (10, [])))).
  eapply Qle_trans; [|apply Q.le_max_r]. lra.
Qed.

Lemma assessQuality_floor sim r : 4 <= Check.score (assessQuality sim r).
Proof.
  unfold assessQuality, finish. cbn [Check.score]. unfold Math_max.
  assert (H1 : forall a, fst a - 3 <= fst (lengthStep r a))
    by (unfold lengthStep; step_floor).
  assert (H2 : forall a, fst a - 2 <= fst (repetitionStep sim r a))
    by (unfold repetitionStep; step_floor).
  assert (H3 : forall a, fst a - 1 <= fst (formalityStep r a))
    by (unfold formalityStep; step_floor).
  specialize (H1 (10, [])). cbn [fst] in H1.
  specialize (H2 (lengthStep r (10, []))).
  specialize (H3 (repetitionStep sim r (lengthStep r (10, [])))).
  eapply Qle_trans; [|apply Q.le_max_r]. lra.
Qed.

Lemma floor_total sim q r st : 8 <= totalScore (checkOutcomes sim q r st).
Proof.
  pose proof (checkOutcomes_inRange sim q r st) as Hl.
  unfold checkOutcomes in *.
  repeat match goal with
         | H : Forall _ (_ :: _) |- _ => apply Forall_cons_iff in H; destruct H as [[[? _] _] H]
         end.
  repeat rewrite totalScore_cons.
  pose proof (validateCompleteness_floor q r).
  pose proof (assessQuality_floor sim r).
  assert (E0 : totalScore [] == 0) by reflexivity.
  rewrite E0. lra.
Qed.

(** X15 -- a floor under the confidence.  The completeness check and the
    quality check each deduct at most 6 from 10, so for every query,
    response and state the confidence of a result of the seven checks is at
    least 100 * 8 / 70 (about 11.4): a confidence of 0 is only ever
    reported by the fallback of a failed run. *)
Theorem confidence_floor :
  forall sim q r st,
    80 # 7 <= confidence (fst (validateResponse sim q r st))
    /\ 4 <= Check.score (validateCompleteness q r)
    /\ 4 <= Check.score (assessQuality sim r).
Proof.
  intros sim q r st.
  split; [|split; [apply validateCompleteness_floor | apply assessQuality_floor]].
  rewrite validateResponse_aggregate.
  generalize (checkOutcomes_inRange sim q r st) (floor_total sim q r st).
  assert (Hn : List.length (checkOutcomes sim q r st) = 7%nat) by reflexivity.
  revert Hn. generalize (checkOutcomes sim q r st). intros outs Hn Hl Ht.
  assert (Hne : outs <> []) by (destruct outs; [discriminate | congruence]).
  destruct (aggregate_confidence r outs Hl Hne) as [Hc _].
  destruct (totals_inRange outs Hl) as [Hm _].
  rewrite Hc, Hm, Hn.
  apply Qle_shift_div_l; [reflexivity|].
  change (10 * ofNat 7) with (70 # 1). lra.
Qed.
